(** * k8s-latency-probe: a model of [main.go] and its coordination properties

    [main.go] holds two versions of the probe: the instrumented one (OpenTelemetry
    spans, namespace resolved by [currentNamespace]) and the plain one (namespace
    ["default"], a separate goroutine for the measurement).  Both are embedded
    here as small-step machines over one configuration type.  A goroutine is a
    program counter; a schedule is a list of events that either let the world
    move (the clock, the ticker, the context) or run one goroutine for one
    step, handing it the reply of the API server when the step is a call. *)

From Stdlib Require Import ZArith NArith List String Ascii Bool Lia.
From Stdlib.Strings Require Import Byte.
Import ListNotations.

Local Open Scope string_scope.
Local Open Scope Z_scope.

(** ** Go values *)

(** A Go [error]: [None] is [nil], [Some m] an error whose [Error()] is [m]. *)
Definition error := option string.

(** A computation that may panic. *)
Inductive outcome (A : Type) : Type :=
| Value (a : A)
| Panic (msg : string).
Arguments Value {A} a.
Arguments Panic {A} msg.

Definition bind {A B : Type} (c : outcome A) (k : A -> outcome B) : outcome B :=
  match c with
  | Value a => k a
  | Panic m => Panic m
  end.

Notation "x <- c ;; k" := (bind c (fun x => k))
  (at level 61, c at next level, right associativity).

(** [func must[V any](v V, e error) V] *)
Definition must {V : Type} (ve : V * error) : outcome V :=
  match snd ve with
  | Some e => Panic e
  | None => Value (fst ve)
  end.

(** [time.Duration] counts nanoseconds. *)
Definition Millisecond : Z := 1000000.
Definition Minute : Z := 60 * 1000 * Millisecond.

(** [Duration.Milliseconds]: integer division, truncated towards zero. *)
Definition Milliseconds (d : Z) : Z := Z.quot d Millisecond.

(** [time.Since(start)], at clock reading [now]; [Time.Sub] saturates at the
    largest [Duration]. *)
Definition maxDuration : Z := 2 ^ 63 - 1.
Definition minDuration : Z := - 2 ^ 63.
Definition Since (now start : Z) : Z :=
  Z.max minDuration (Z.min maxDuration (now - start)).

(** [hex.EncodeToString] *)
Definition hextable : string := "0123456789abcdef".

Definition hexdigit (n : N) : ascii :=
  match String.get (N.to_nat n) hextable with
  | Some c => c
  | None => "0"%char
  end.

Fixpoint EncodeToString (src : list byte) : string :=
  match src with
  | [] => EmptyString
  | v :: rest =>
      String (hexdigit (N.shiftr (Byte.to_N v) 4))
        (String (hexdigit (N.land (Byte.to_N v) 15)) (EncodeToString rest))
  end.

(** ** The process environment

    What the program reads from outside before its first remote call. *)
Record environ : Type := {
  Getenv : string -> string;              (* os.Getenv: empty when unset *)
  ReadFile : string -> string * error;    (* os.ReadFile *)
  otlptrace_New : error;                  (* otlptrace.New *)
  resource_New : error;                   (* resource.New *)
  InClusterConfig : error;                (* rest.InClusterConfig *)
  NewForConfig : error;                   (* kubernetes.NewForConfig *)
  rand_Read : list byte * error           (* rand.Read: the bytes written *)
}.

Definition namespace_file : string :=
  "/var/run/secrets/kubernetes.io/serviceaccount/namespace".

(** [func currentNamespace() (string, error)] *)
Definition currentNamespace (env : environ) : string * error :=
  let ns := Getenv env "K8S_NAMESPACE_NAME" in
  if negb (ns =? EmptyString)%string then (ns, None)
  else
    match ReadFile env namespace_file with
    | (_, Some err) => (EmptyString, Some ("failed to read namespace: " ++ err))
    | (data, None) => (data, None)
    end.

(** [func initOpenTelemetry(ctx) func()]: the two failures panic with a
    formatted message. *)
Definition initOpenTelemetry (env : environ) : outcome unit :=
  match otlptrace_New env with
  | Some err => Panic ("failed to create OTLP trace exporter: " ++ err)
  | None =>
      match resource_New env with
      | Some err => Panic ("failed to create resource: " ++ err)
      | None => Value tt
      end
  end.

(** [buf := make([]byte, 8); rand.Read(buf)]: the bytes read overwrite a
    zeroed buffer of length 8. *)
Definition fill_buf (written : list byte) : list byte :=
  firstn 8 (written ++ repeat x00 8).

(** ** The remote calls *)

Inductive api_call : Type :=
| Create (ns name : string) (labels : list (string * string))
| List (ns labelSelector : string)
| Patch (ns name body : string)
| Delete (ns name : string).

(** [fmt.Sprintf("probe-%s", instance)] *)
Definition probe_name (instance : string) : string := "probe-" ++ instance.

(** [fmt.Sprintf("probe-instance=%s", instance)] *)
Definition probe_selector (instance : string) : string :=
  "probe-instance=" ++ instance.

(** [fmt.Appendf(nil, "{\"metadata\":{\"labels\":{\"probe-instance\":\"%s\"}}}", instance)] *)
Definition quote : string := String (ascii_of_nat 34) EmptyString.
Definition probe_patch (instance : string) : string :=
  "{" ++ quote ++ "metadata" ++ quote ++ ":{" ++ quote ++ "labels" ++ quote
  ++ ":{" ++ quote ++ "probe-instance" ++ quote ++ ":" ++ quote ++ instance
  ++ quote ++ "}}}".

Definition base_labels : list (string * string) := [("app", "probe")].

(** ** Goroutines, channels and what a run leaves behind *)

Inductive goroutine : Type := GMain | GPoller | GWaiter.

Inductive channel : Type := ChFound | ChDone | ChCtxDone | ChTicker.

Inductive action : Type :=
| Call (c : api_call) (err : error) (items : nat)  (* a remote call and its reply *)
| Stdout (line : string)                           (* fmt.Println / Printf *)
| Latency (ms : Z)                                 (* "pod found latency_ms=%d" *)
| SpanStart (span : string)
| SpanAttr (span key value : string)
| SpanEvent (span name : string)
| SpanError (span msg : string)
| SpanEnd (span : string)
| Took (g : goroutine) (ch : channel)              (* the case a select took *)
| Closed (ch : channel).

Inductive proc_status : Type :=
| Running
| Exited                                           (* main returned *)
| Panicked (msg : string).                         (* unrecovered panic *)

(** Program points of [main]: before [Create], before [Patch], at the final
    [select], before [Delete] (instrumented version only), returned. *)
Inductive main_pc : Type := M_create | M_patch | M_select | M_delete | M_exited.

(** Program points of the polling goroutine: not started, at its first
    statement, before [List], blocked in [found <- struct{}{}], before
    [close(found)], at its [select], returned. *)
Inductive poller_pc : Type :=
  P_none | P_begin | P_list | P_send | P_close | P_wait | P_returned.

(** Program points of the measuring goroutine of the plain version: not
    started, at [start := time.Now()], at its [select], before the latency
    line, before [Delete], blocked in [done <- struct{}{}], returned. *)
Inductive waiter_pc : Type :=
  W_none | W_begin | W_select | W_report | W_delete | W_send | W_returned.

Record config : Type := mkConfig {
  status : proc_status;
  mpc : main_pc;
  ppc : poller_pc;
  wpc : waiter_pc;
  clock : Z;                 (* nanoseconds since the context was created *)
  ctx_deadline : Z;          (* context.WithTimeout *)
  ctx_done : bool;           (* ctx.Done() is closed *)
  ticker_on : bool;          (* between NewTicker and Stop *)
  ticker_next : Z;           (* when the ticker fires next *)
  tick_ready : bool;         (* ticker.C, a channel of capacity 1 *)
  found_closed : bool;
  namespace : string;
  instance : string;
  pod_name : string;         (* pod.Name of the object Create returned *)
  wait_start : Z;            (* start := time.Now() *)
  trace : list (Z * action)  (* most recent first, each with its clock reading *)
}.

Definition set_status (st : config) (v : proc_status) : config :=
  mkConfig v (mpc st) (ppc st) (wpc st) (clock st) (ctx_deadline st)
    (ctx_done st) (ticker_on st) (ticker_next st) (tick_ready st)
    (found_closed st) (namespace st) (instance st) (pod_name st)
    (wait_start st) (trace st).

Definition set_mpc (st : config) (v : main_pc) : config :=
  mkConfig (status st) v (ppc st) (wpc st) (clock st) (ctx_deadline st)
    (ctx_done st) (ticker_on st) (ticker_next st) (tick_ready st)
    (found_closed st) (namespace st) (instance st) (pod_name st)
    (wait_start st) (trace st).

Definition set_ppc (st : config) (v : poller_pc) : config :=
  mkConfig (status st) (mpc st) v (wpc st) (clock st) (ctx_deadline st)
    (ctx_done st) (ticker_on st) (ticker_next st) (tick_ready st)
    (found_closed st) (namespace st) (instance st) (pod_name st)
    (wait_start st) (trace st).

Definition set_wpc (st : config) (v : waiter_pc) : config :=
  mkConfig (status st) (mpc st) (ppc st) v (clock st) (ctx_deadline st)
    (ctx_done st) (ticker_on st) (ticker_next st) (tick_ready st)
    (found_closed st) (namespace st) (instance st) (pod_name st)
    (wait_start st) (trace st).

Definition set_clock (st : config) (v : Z) : config :=
  mkConfig (status st) (mpc st) (ppc st) (wpc st) v (ctx_deadline st)
    (ctx_done st) (ticker_on st) (ticker_next st) (tick_ready st)
    (found_closed st) (namespace st) (instance st) (pod_name st)
    (wait_start st) (trace st).

Definition set_ctx_done (st : config) (v : bool) : config :=
  mkConfig (status st) (mpc st) (ppc st) (wpc st) (clock st) (ctx_deadline st)
    v (ticker_on st) (ticker_next st) (tick_ready st)
    (found_closed st) (namespace st) (instance st) (pod_name st)
    (wait_start st) (trace st).

Definition set_ticker (st : config) (on : bool) (next : Z) : config :=
  mkConfig (status st) (mpc st) (ppc st) (wpc st) (clock st) (ctx_deadline st)
    (ctx_done st) on next (tick_ready st)
    (found_closed st) (namespace st) (instance st) (pod_name st)
    (wait_start st) (trace st).

Definition set_tick_ready (st : config) (v : bool) : config :=
  mkConfig (status st) (mpc st) (ppc st) (wpc st) (clock st) (ctx_deadline st)
    (ctx_done st) (ticker_on st) (ticker_next st) v
    (found_closed st) (namespace st) (instance st) (pod_name st)
    (wait_start st) (trace st).

Definition set_found_closed (st : config) (v : bool) : config :=
  mkConfig (status st) (mpc st) (ppc st) (wpc st) (clock st) (ctx_deadline st)
    (ctx_done st) (ticker_on st) (ticker_next st) (tick_ready st)
    v (namespace st) (instance st) (pod_name st)
    (wait_start st) (trace st).

Definition set_identity (st : config) (ns inst : string) : config :=
  mkConfig (status st) (mpc st) (ppc st) (wpc st) (clock st) (ctx_deadline st)
    (ctx_done st) (ticker_on st) (ticker_next st) (tick_ready st)
    (found_closed st) ns inst (pod_name st)
    (wait_start st) (trace st).

Definition set_pod_name (st : config) (v : string) : config :=
  mkConfig (status st) (mpc st) (ppc st) (wpc st) (clock st) (ctx_deadline st)
    (ctx_done st) (ticker_on st) (ticker_next st) (tick_ready st)
    (found_closed st) (namespace st) (instance st) v
    (wait_start st) (trace st).

Definition set_wait_start (st : config) (v : Z) : config :=
  mkConfig (status st) (mpc st) (ppc st) (wpc st) (clock st) (ctx_deadline st)
    (ctx_done st) (ticker_on st) (ticker_next st) (tick_ready st)
    (found_closed st) (namespace st) (instance st) (pod_name st)
    v (trace st).

(** Record an action at the current clock reading. *)
Definition emit (st : config) (a : action) : config :=
  mkConfig (status st) (mpc st) (ppc st) (wpc st) (clock st) (ctx_deadline st)
    (ctx_done st) (ticker_on st) (ticker_next st) (tick_ready st)
    (found_closed st) (namespace st) (instance st) (pod_name st)
    (wait_start st) ((clock st, a) :: trace st).

(** ** Schedules *)

(** What the API server answers when the step is a remote call ([r_name] is
    the name of the returned object, [r_items] the length of [pods.Items]),
    and which case a [select] takes when more than one is ready.  A call and
    its reply are one step.  The replies of a schedule are not constrained,
    so that the schedules include some that no cluster produces: a call
    issued with a context that is done fails in the client, and a [List] by
    the selector finds nothing before the label has been attached. *)
Record reply : Type := mkReply {
  r_err : error;
  r_name : string;
  r_items : nat;
  prefer_done : bool
}.

Inductive event : Type :=
| Elapse (d : N)                    (* the clock advances by d nanoseconds *)
| Signal                            (* SIGTERM or SIGINT: NotifyContext cancels *)
| Timeout                           (* the timer of WithTimeout fires *)
| Tick                              (* the ticker delivers on ticker.C *)
| Run (g : goroutine) (r : reply).  (* one goroutine runs one step *)

(** [context.WithTimeout(context.Background(), 5*time.Minute)] *)
Definition runTimeout : Z := 5 * Minute.

(** [time.NewTicker(100 * time.Millisecond)] *)
Definition pollInterval : Z := 100 * Millisecond.

(** The moves of the world.  The timer cannot fire before the deadline, the
    ticker not before its next instant; a tick that finds [ticker.C] full is
    dropped. *)
Definition world (st : config) (ev : event) : config :=
  match ev with
  | Elapse d => set_clock st (clock st + Z.of_N d)
  | Signal => set_ctx_done st true
  | Timeout =>
      if ctx_deadline st <=? clock st then set_ctx_done st true else st
  | Tick =>
      if ticker_on st && (ticker_next st <=? clock st)
      then set_tick_ready (set_ticker st true (ticker_next st + pollInterval)) true
      else st
  | Run _ _ => st
  end.

(** A [select] over [ctx.Done()] and one other channel: it blocks while
    neither is ready and takes either case when both are. *)
Inductive selected : Type := TakeDone | TakeOther | Blocked.

Definition select2 (done_ready other_ready prefer : bool) : selected :=
  match done_ready, other_ready with
  | true, true => if prefer then TakeDone else TakeOther
  | true, false => TakeDone
  | false, true => TakeOther
  | false, false => Blocked
  end.

(** [found] is unbuffered: a receive is ready when the sender is blocked in
    its send, or once the channel is closed. *)
Definition sender_waiting (st : config) : bool :=
  match ppc st with P_send => true | _ => false end.

Definition found_ready (st : config) : bool :=
  sender_waiting st || found_closed st.

(** [<-found] by goroutine [g]: the blocked send, if any, completes. *)
Definition receive_found (g : goroutine) (st : config) : config :=
  let st := emit st (Took g ChFound) in
  if sender_waiting st then set_ppc st P_close else st.

(** [time.NewTicker(100 * time.Millisecond)] and [ticker.Stop()] *)
Definition NewTicker (st : config) : config :=
  set_ticker st true (clock st + pollInterval).

Definition ticker_Stop (st : config) : config :=
  set_ticker st false (ticker_next st).

(** An unrecovered panic ends the process.  A configuration whose status is
    not [Running] stands for the moment the panic was raised or [main]
    returned.  What happens while the process goes down is not part of the
    model: the deferred calls of [main] other than [globalSpan.End()]
    ([shutdown()], which may print, and [cancelSig()] and [cancel()], which
    close [ctx.Done()]), and the steps the other goroutines still take in
    that time. *)
Definition crash (st : config) (msg : string) : config :=
  set_status st (Panicked msg).

(** The state in which the process starts: the context exists, nothing has
    run. *)
Definition initial : config :=
  mkConfig Running M_create P_none W_none 0 runTimeout false false 0 false
    false EmptyString EmptyString EmptyString 0 [].

(** ** The instrumented version (first [main]) *)
Module Instrumented.

(** A panic in [main] runs its deferred [globalSpan.End()]. *)
Definition main_panic (st : config) (msg : string) : config :=
    crash (emit st (SpanEnd "prober.main")) msg.

(** The polling goroutine's deferred calls: [ticker.Stop()], [span.End()]. *)
Definition poller_deferred (st : config) : config :=
    emit (ticker_Stop st) (SpanEnd "prober.wait-for-pod").

Definition poller_panic (st : config) (msg : string) : config :=
    crash (poller_deferred st) msg.

Definition poller_return (st : config) : config :=
    set_ppc (poller_deferred st) P_returned.

(** [main] up to the first remote call: telemetry, client, namespace,
      instance token. *)
Definition boot (env : environ) : config :=
    match initOpenTelemetry env with
    | Panic m => crash initial m
    | Value _ =>
        let st := emit initial (SpanStart "prober.main") in
        match
          (_ <- must (tt, InClusterConfig env) ;;
           _ <- must (tt, NewForConfig env) ;;
           namespace <- must (currentNamespace env) ;;
           buf <- must (fill_buf (fst (rand_Read env)), snd (rand_Read env)) ;;
           Value (namespace, EncodeToString buf))
        with
        | Panic m => main_panic st m
        | Value (ns, inst) => set_identity st ns inst
        end
    end.

Definition main_step (st : config) (r : reply) : config :=
    match mpc st with
    | M_create =>
        let st := emit st (SpanStart "prober.create-pod") in
        let st := emit st (SpanAttr "prober.create-pod" "instance" (instance st)) in
        let st := emit st (Call (Create (namespace st) (probe_name (instance st))
                                   base_labels) (r_err r) 0) in
        match must (r_name r, r_err r) with
        | Panic m => main_panic st m
        | Value name =>
            let st := set_pod_name st name in
            let st := emit st (Stdout ("Created pod " ++ name)) in
            let st := emit st (SpanEnd "prober.create-pod") in
            (* found := make(chan struct{}); go func(ctx) {...}(ctx) *)
            set_mpc (set_ppc st P_begin) M_patch
        end
    | M_patch =>
        let st := emit st (SpanStart "prober.update-pod") in
        let st := emit st (Call (Patch (namespace st) (pod_name st)
                                   (probe_patch (instance st))) (r_err r) 0) in
        match must (r_name r, r_err r) with
        | Panic m => main_panic st m
        | Value _ => set_mpc (emit st (SpanEnd "prober.update-pod")) M_select
        end
    | M_select =>
        match select2 (ctx_done st) (found_ready st) (prefer_done r) with
        | Blocked => st
        | TakeOther => set_mpc (receive_found GMain st) M_delete
        | TakeDone =>
            let st := emit st (Took GMain ChCtxDone) in
            let st := emit st (Stdout "Context done, cleaning up and exiting...") in
            set_mpc st M_delete
        end
    | M_delete =>
        let st := emit st (SpanStart "prober.cleanup") in
        let st := emit st (Call (Delete (namespace st) (pod_name st)) (r_err r) 0) in
        match r_err r with
        | Some m => main_panic st m
        | None =>
            let st := emit st (Stdout ("Deleted pod " ++ pod_name st)) in
            let st := emit st (SpanEnd "prober.cleanup") in
            (* main returns: deferred globalSpan.End() *)
            set_status (set_mpc (emit st (SpanEnd "prober.main")) M_exited) Exited
        end
    | M_exited => st
    end.

Definition poller_step (st : config) (r : reply) : config :=
    match ppc st with
    | P_none => st
    | P_begin =>
        let st := emit st (SpanStart "prober.wait-for-pod") in
        set_ppc (NewTicker st) P_list
    | P_list =>
        let st := emit st (Call (List (namespace st) (probe_selector (instance st)))
                                (r_err r) (r_items r)) in
        match r_err r with
        | Some m => poller_panic st m
        | None =>
            if (0 <? r_items r)%nat
            then set_ppc (emit st (SpanEvent "prober.wait-for-pod" "Pod found")) P_send
            else set_ppc st P_wait
        end
    | P_send => st                       (* blocked in found <- struct{}{} *)
    | P_close =>
        poller_return (set_found_closed (emit st (Closed ChFound)) true)
    | P_wait =>
        match select2 (ctx_done st) (tick_ready st) (prefer_done r) with
        | Blocked => st
        | TakeDone =>
            let st := emit st (Took GPoller ChCtxDone) in
            let st := emit st (SpanError "prober.wait-for-pod"
                                 "context deadline exceeded") in
            let st := emit st (Stdout "Context done, exiting...") in
            poller_return st
        | TakeOther =>
            set_ppc (set_tick_ready (emit st (Took GPoller ChTicker)) false) P_list
        end
    | P_returned => st
    end.

(** One event.  Nothing moves once the process has exited or crashed. *)
Definition step (st : config) (ev : event) : config :=
    match status st with
    | Running =>
        match ev with
        | Run GMain r => main_step st r
        | Run GPoller r => poller_step st r
        | Run GWaiter _ => st
        | _ => world st ev
        end
    | _ => st
    end.

Definition run_from (st : config) (evs : list event) : config :=
    fold_left step evs st.

Definition run (env : environ) (evs : list event) : config :=
    run_from (boot env) evs.

End Instrumented.

(** ** The plain version (second [main]) *)
Module Plain.

(** The polling goroutine's deferred call: [ticker.Stop()]. *)
Definition poller_panic (st : config) (msg : string) : config :=
    crash (ticker_Stop st) msg.

Definition poller_return (st : config) : config :=
    set_ppc (ticker_Stop st) P_returned.

(** [main] up to the first remote call: client and instance token. *)
Definition boot (env : environ) : config :=
    match
      (_ <- must (tt, InClusterConfig env) ;;
       _ <- must (tt, NewForConfig env) ;;
       buf <- must (fill_buf (fst (rand_Read env)), snd (rand_Read env)) ;;
       Value (EncodeToString buf))
    with
    | Panic m => crash initial m
    | Value inst => set_identity initial EmptyString inst
    end.

Definition main_step (st : config) (r : reply) : config :=
    match mpc st with
    | M_create =>
        let st := emit st (Call (Create "default" (probe_name (instance st))
                                   base_labels) (r_err r) 0) in
        match must (r_name r, r_err r) with
        | Panic m => crash st m
        | Value name =>
            let st := set_pod_name st name in
            let st := emit st (Stdout ("Created pod " ++ name)) in
            (* the two go statements *)
            set_mpc (set_wpc (set_ppc st P_begin) W_begin) M_patch
        end
    | M_patch =>
        let st := emit st (Call (Patch "default" (pod_name st)
                                   (probe_patch (instance st))) (r_err r) 0) in
        match must (r_name r, r_err r) with
        | Panic m => crash st m
        | Value _ => set_mpc st M_select
        end
    | M_select =>
        (* done is unbuffered: ready when the sender is blocked in its send *)
        let done_ready := match wpc st with W_send => true | _ => false end in
        match select2 (ctx_done st) done_ready (prefer_done r) with
        | Blocked => st
        | TakeOther =>
            let st := set_wpc (emit st (Took GMain ChDone)) W_returned in
            let st := emit st (Stdout "Context done, exiting...") in
            set_status (set_mpc st M_exited) Exited
        | TakeDone =>
            let st := emit st (Took GMain ChCtxDone) in
            let st := emit st (Stdout "Context done, exiting...") in
            set_status (set_mpc st M_exited) Exited
        end
    | M_delete => st
    | M_exited => st
    end.

Definition poller_step (st : config) (r : reply) : config :=
    match ppc st with
    | P_none => st
    | P_begin => set_ppc (NewTicker st) P_wait
    | P_wait =>
        match select2 (ctx_done st) (tick_ready st) (prefer_done r) with
        | Blocked => st
        | TakeDone =>
            let st := emit st (Took GPoller ChCtxDone) in
            poller_return (emit st (Stdout "Context done, exiting..."))
        | TakeOther =>
            set_ppc (set_tick_ready (emit st (Took GPoller ChTicker)) false) P_list
        end
    | P_list =>
        let st := emit st (Call (List "default" (probe_selector (instance st)))
                                (r_err r) (r_items r)) in
        match r_err r with
        | Some m => poller_panic st m
        | None =>
            if (0 <? r_items r)%nat then set_ppc st P_send else set_ppc st P_wait
        end
    | P_send => st                       (* blocked in found <- struct{}{} *)
    | P_close =>
        poller_return (set_found_closed (emit st (Closed ChFound)) true)
    | P_returned => st
    end.

Definition waiter_step (st : config) (r : reply) : config :=
    match wpc st with
    | W_none => st
    | W_begin => set_wpc (set_wait_start st (clock st)) W_select
    | W_select =>
        match select2 (ctx_done st) (found_ready st) (prefer_done r) with
        | Blocked => st
        | TakeDone =>
            let st := emit st (Took GWaiter ChCtxDone) in
            let st := emit st (Stdout "context deadline expired before pod was found...") in
            set_wpc st W_returned
        | TakeOther => set_wpc (receive_found GWaiter st) W_report
        end
    | W_report =>
        let st := emit st (Latency (Milliseconds (Since (clock st) (wait_start st)))) in
        let st := emit st (Stdout "deleting pod...") in
        set_wpc st W_delete
    | W_delete =>
        let st := emit st (Call (Delete "default" (pod_name st)) (r_err r) 0) in
        match r_err r with
        | Some m => crash st m
        | None =>
            set_wpc (emit st (Stdout ("Deleted pod " ++ pod_name st))) W_send
        end
    | W_send => st                       (* blocked in done <- struct{}{} *)
    | W_returned => st
    end.

Definition step (st : config) (ev : event) : config :=
    match status st with
    | Running =>
        match ev with
        | Run GMain r => main_step st r
        | Run GPoller r => poller_step st r
        | Run GWaiter r => waiter_step st r
        | _ => world st ev
        end
    | _ => st
    end.

Definition run_from (st : config) (evs : list event) : config :=
    fold_left step evs st.

Definition run (env : environ) (evs : list event) : config :=
    run_from (boot env) evs.

End Plain.

(** ** Reading a trace *)

Fixpoint calls_of (tr : list (Z * action)) : list api_call :=
  match tr with
  | [] => []
  | (_, Call c _ _) :: tr' => c :: calls_of tr'
  | _ :: tr' => calls_of tr'
  end.

(** The remote calls of a run, in the order they were issued. *)
Definition api_sequence (st : config) : list api_call :=
  rev (calls_of (trace st)).

Definition is_create (c : api_call) : bool :=
  match c with Create _ _ _ => true | _ => false end.
Definition is_list (c : api_call) : bool :=
  match c with List _ _ => true | _ => false end.
Definition is_patch (c : api_call) : bool :=
  match c with Patch _ _ _ => true | _ => false end.
Definition is_delete (c : api_call) : bool :=
  match c with Delete _ _ => true | _ => false end.

Definition count_calls (p : api_call -> bool) (st : config) : nat :=
  Datatypes.length (filter p (calls_of (trace st))).

(** The object exists for the run once [Create] has returned without error. *)
Fixpoint created_in (tr : list (Z * action)) : bool :=
  match tr with
  | [] => false
  | (_, Call (Create _ _ _) None _) :: _ => true
  | _ :: tr' => created_in tr'
  end.
Definition pod_created (st : config) : bool := created_in (trace st).

(** The latency values a run printed, most recent first. *)
Fixpoint latencies_of (tr : list (Z * action)) : list Z :=
  match tr with
  | [] => []
  | (_, Latency ms) :: tr' => ms :: latencies_of tr'
  | _ :: tr' => latencies_of tr'
  end.
Definition latencies (st : config) : list Z := latencies_of (trace st).

Definition action_eqb_took (g : goroutine) (ch : channel) (a : action) : bool :=
  match a with
  | Took g' ch' =>
      match g, g' with
      | GMain, GMain | GPoller, GPoller | GWaiter, GWaiter =>
          match ch, ch' with
          | ChFound, ChFound | ChDone, ChDone | ChCtxDone, ChCtxDone
          | ChTicker, ChTicker => true
          | _, _ => false
          end
      | _, _ => false
      end
  | _ => false
  end.

(** How many times goroutine [g] took the case of channel [ch]. *)
Definition took (g : goroutine) (ch : channel) (st : config) : nat :=
  Datatypes.length (filter (fun ta => action_eqb_took g ch (snd ta)) (trace st)).

(** A [List] that returned at least one pod. *)
Definition is_hit (a : action) : bool :=
  match a with
  | Call (List _ _) None n => (0 <? n)%nat
  | _ => false
  end.

Definition has_hit (tr : list (Z * action)) : bool :=
  existsb (fun ta => is_hit (snd ta)) tr.

(** Replies and a process environment to run the machines on. *)
Definition ok (name : string) : reply := mkReply None name 0 false.
Definition fails (msg : string) : reply := mkReply (Some msg) EmptyString 0 false.
Definition items (n : nat) : reply := mkReply None EmptyString n false.
Definition go : reply := mkReply None EmptyString 0 false.
Definition on_done : reply := mkReply None EmptyString 0 true.

Definition sample_bytes : list byte := [x01; x23; x45; x67; x89; xab; xcd; xef].

Definition env_with (override : string) (file : string * error) : environ :=
  {| Getenv := fun k => if (k =? "K8S_NAMESPACE_NAME")%string then override else EmptyString;
     ReadFile := fun p => if (p =? namespace_file)%string then file
                          else (EmptyString, Some "no such file or directory");
     otlptrace_New := None;
     resource_New := None;
     InClusterConfig := None;
     NewForConfig := None;
     rand_Read := (sample_bytes, None) |}.

Definition sample_env : environ := env_with "probes" ("kube-system", None).
Definition sample_pod : string := "probe-0123456789abcdef".

(** ** Invariants of the two machines *)

(** Every remote call of a run names the run's namespace, and the object or
    the selector derived from its instance token. *)
Definition call_wf (ns inst pod : string) (c : api_call) : Prop :=
  match c with
  | Create ns' name labels =>
      ns' = ns /\ name = probe_name inst /\ labels = base_labels
  | List ns' sel => ns' = ns /\ sel = probe_selector inst
  | Patch ns' name body => ns' = ns /\ name = pod /\ body = probe_patch inst
  | Delete ns' name => ns' = ns /\ name = pod
  end.

Fixpoint calls_wf (ns inst pod : string) (tr : list (Z * action)) : Prop :=
  match tr with
  | [] => True
  | (_, Call c _ _) :: tr' => call_wf ns inst pod c /\ calls_wf ns inst pod tr'
  | _ :: tr' => calls_wf ns inst pod tr'
  end.

(** [main] has not yet left its [select]. *)
Definition pre_race (pc : main_pc) : bool :=
  match pc with
  | M_create | M_patch | M_select => true
  | M_delete | M_exited => false
  end.

(** The polling goroutine is at its send or past it. *)
Definition at_or_past_send (pc : poller_pc) : bool :=
  match pc with
  | P_send | P_close | P_returned => true
  | _ => false
  end.

(** The polling goroutine has created its ticker. *)
Definition polling (pc : poller_pc) : bool :=
  match pc with
  | P_none | P_begin => false
  | _ => true
  end.

(** The measuring goroutine has not yet left its [select]. *)
Definition pre_report (pc : waiter_pc) : bool :=
  match pc with
  | W_none | W_begin | W_select => true
  | _ => false
  end.

Definition b2z (b : bool) : Z := if b then 1 else 0.

Definition about_to_list (st : config) : bool :=
  match ppc st, status st with
  | P_list, Running => true
  | _, _ => false
  end.

(** What the polling goroutine does in its loop: a [List], or a case of its
    [select]. *)
Definition is_poll_action (a : action) : bool :=
  match a with
  | Call (List _ _) _ _ => true
  | Took GPoller _ => true
  | _ => false
  end.

(** Nothing of the polling loop happens after a [List] returned a pod. *)
Fixpoint loop_ends_at_hit (tr : list (Z * action)) : bool :=
  match tr with
  | [] => true
  | (_, a) :: tr' =>
      (if is_poll_action a then negb (has_hit tr') else true)
      && loop_ends_at_hit tr'
  end.

(** Every latency line carries the time elapsed since [start], read when the
    line is printed. *)
Fixpoint latencies_wf (start : Z) (tr : list (Z * action)) : Prop :=
  match tr with
  | [] => True
  | (t, Latency ms) :: tr' =>
      (ms = Milliseconds (Since t start) /\ start <= t) /\ latencies_wf start tr'
  | _ :: tr' => latencies_wf start tr'
  end.

Definition list_calls (st : config) : Z := Z.of_nat (count_calls is_list st).
Definition ticks_taken (st : config) : Z := Z.of_nat (took GPoller ChTicker st).

Definition at_list (pc : poller_pc) : Z :=
  match pc with P_list => 1 | _ => 0 end.

(** The invariant of the polling goroutine, in either version: [first] is 1
    when the loop issues a [List] before its first tick and 0 when it waits
    for a tick first; [g] is the goroutine that receives from [found]. *)
Definition inv_poll (first : Z) (g : goroutine) (st : config) : Prop :=
  0 <= clock st
  /\ (polling (ppc st) = false ->
      list_calls st = 0 /\ ticks_taken st = 0 /\ has_hit (trace st) = false
      /\ tick_ready st = false /\ ticker_on st = false)
  /\ (polling (ppc st) = true ->
      ticker_next st - pollInterval <= clock st
      /\ (list_calls st + b2z (tick_ready st) + b2z (about_to_list st))
           * pollInterval <= ticker_next st - pollInterval + first * pollInterval
      /\ ticks_taken st + first <= list_calls st + at_list (ppc st)
      /\ list_calls st + b2z (about_to_list st) <= ticks_taken st + first)
  /\ loop_ends_at_hit (trace st) = true
  /\ (has_hit (trace st) = true -> at_or_past_send (ppc st) = true)
  /\ (has_hit (trace st) = false -> took g ChFound st = 0%nat)
  /\ (ppc st = P_send ->
      has_hit (trace st) = true /\ took g ChFound st = 0%nat
      /\ found_closed st = false)
  /\ (ppc st = P_close ->
      has_hit (trace st) = true /\ took g ChFound st = 1%nat
      /\ found_closed st = false)
  /\ (ppc st = P_returned -> has_hit (trace st) = true ->
      took g ChFound st = 1%nat /\ found_closed st = true)
  /\ (found_closed st = true -> ppc st = P_returned /\ has_hit (trace st) = true).

(** Every call of a run is well formed for namespace [ns]; before [Create]
    returns no call depends on the object's name. *)
Definition inv_calls (ns : string) (st : config) : Prop :=
  calls_wf ns (instance st) (pod_name st) (trace st)
  /\ (mpc st = M_create -> status st = Running ->
      forall pod, calls_wf ns (instance st) pod (trace st)).

(** The invariant of [main] in the instrumented version. *)
Definition inv_I_main (st : config) : Prop :=
  wpc st = W_none
  /\ (mpc st = M_create -> ppc st = P_none)
  /\ (mpc st = M_create -> status st = Running -> calls_of (trace st) = [])
  /\ (pre_race (mpc st) = true ->
      count_calls is_delete st = 0%nat
      /\ took GMain ChFound st = 0%nat /\ took GMain ChCtxDone st = 0%nat)
  /\ (pre_race (mpc st) = false ->
      (took GMain ChFound st + took GMain ChCtxDone st = 1)%nat)
  /\ (mpc st = M_delete ->
      (status st = Running -> count_calls is_delete st = 0%nat)
      /\ (count_calls is_delete st <= 1)%nat /\ status st <> Exited)
  /\ (mpc st = M_exited -> status st = Exited /\ count_calls is_delete st = 1%nat)
  /\ (status st = Exited -> mpc st = M_exited)
  /\ (count_calls is_create st <= 1)%nat
  /\ (count_calls is_patch st <= 1)%nat
  /\ (mpc st = M_patch -> status st = Running ->
      count_calls is_patch st = 0%nat)
  /\ (mpc st <> M_create -> pod_created st = true)
  /\ latencies st = [].

Definition inv_I (st : config) : Prop :=
  inv_I_main st /\ inv_calls (namespace st) st /\ inv_poll 1 GMain st.

(** The invariant of [main] and of the measuring goroutine in the plain
    version. *)
Definition inv_P_main (st : config) : Prop :=
  mpc st <> M_delete
  /\ (mpc st = M_create -> ppc st = P_none /\ wpc st = W_none)
  /\ (mpc st = M_create -> status st = Running -> calls_of (trace st) = [])
  /\ (pre_report (wpc st) = true ->
      count_calls is_delete st = 0%nat
      /\ took GWaiter ChFound st = 0%nat /\ took GWaiter ChCtxDone st = 0%nat
      /\ latencies st = [])
  /\ (wpc st = W_report ->
      count_calls is_delete st = 0%nat
      /\ took GWaiter ChFound st = 1%nat /\ took GWaiter ChCtxDone st = 0%nat
      /\ latencies st = [])
  /\ (wpc st = W_delete ->
      (status st = Running -> count_calls is_delete st = 0%nat)
      /\ (count_calls is_delete st <= 1)%nat
      /\ took GWaiter ChFound st = 1%nat /\ took GWaiter ChCtxDone st = 0%nat
      /\ Datatypes.length (latencies st) = 1%nat)
  /\ (wpc st = W_send ->
      count_calls is_delete st = 1%nat
      /\ took GWaiter ChFound st = 1%nat /\ took GWaiter ChCtxDone st = 0%nat
      /\ Datatypes.length (latencies st) = 1%nat)
  /\ (wpc st = W_returned ->
      count_calls is_delete st = took GWaiter ChFound st
      /\ Datatypes.length (latencies st) = took GWaiter ChFound st
      /\ (took GWaiter ChFound st + took GWaiter ChCtxDone st = 1)%nat)
  /\ (mpc st = M_exited -> status st = Exited)
  /\ (status st = Exited -> mpc st = M_exited)
  /\ (mpc st = M_exited ->
      (took GMain ChDone st + took GMain ChCtxDone st = 1)%nat)
  /\ (mpc st <> M_exited ->
      took GMain ChDone st = 0%nat /\ took GMain ChCtxDone st = 0%nat)
  /\ (count_calls is_create st <= 1)%nat
  /\ (count_calls is_patch st <= 1)%nat
  /\ (mpc st = M_patch -> status st = Running ->
      count_calls is_patch st = 0%nat)
  /\ (mpc st <> M_create -> pod_created st = true).

(** Every latency line of the plain version measures from [start]. *)
Definition inv_latency (st : config) : Prop :=
  latencies_wf (wait_start st) (trace st)
  /\ (pre_report (wpc st) = true -> forall start, latencies_wf start (trace st))
  /\ (match wpc st with
      | W_none | W_begin => True
      | _ => 0 <= wait_start st <= clock st
      end)
  /\ 0 <= clock st.

Definition inv_P (st : config) : Prop :=
  inv_P_main st /\ inv_calls "default" st /\ inv_latency st
  /\ inv_poll 0 GWaiter st.

(** Every call other than [Create] is issued after a [Create] that returned
    without error. *)
Fixpoint after_create (tr : list (Z * action)) : bool :=
  match tr with
  | [] => true
  | (_, Call c _ _) :: tr' =>
      (is_create c || created_in tr') && after_create tr'
  | _ :: tr' => after_create tr'
  end.

(** The lines a run printed, most recent first. *)
Fixpoint stdout_of (tr : list (Z * action)) : list string :=
  match tr with
  | [] => []
  | (_, Stdout line) :: tr' => line :: stdout_of tr'
  | _ :: tr' => stdout_of tr'
  end.
Definition stdout_lines (st : config) : list string := stdout_of (trace st).


Definition call_namespace (c : api_call) : string :=
  match c with
  | Create ns _ _ | List ns _ | Patch ns _ _ | Delete ns _ => ns
  end.

(** ** Schedules used below *)

Definition ms (n : N) : N := n * 1000000.

(** [Create] succeeds and [Patch] fails. *)
Definition patch_refused : list event :=
  [Run GMain (ok sample_pod); Run GMain (fails "patch refused")].

(** No pod is ever listed and the five minutes pass. *)
Definition deadline_first : list event :=
  [Run GMain (ok sample_pod); Run GPoller go; Run GWaiter go;
   Run GMain (ok sample_pod); Elapse (ms 300000); Timeout;
   Run GWaiter go; Run GPoller go; Run GMain go].






Definition after_list_refused : list event :=
  [Run GMain (ok sample_pod); Elapse (ms 300000); Timeout; Run GMain on_done;
   Run GMain go; Run GWaiter go; Run GWaiter on_done].

(** The deadline passes and [Delete] fails. *)
Definition delete_refused : list event :=
  [Run GMain (ok sample_pod); Run GPoller go; Run GPoller (items 0);
   Run GMain (ok sample_pod); Elapse (ms 300000); Timeout; Run GMain go;
   Run GMain (fails "delete refused")].

(** The pod is found and [Delete] fails in the plain version. *)
Definition delete_refused_plain : list event :=
  [Run GMain (ok sample_pod); Run GPoller go; Run GWaiter go;
   Run GMain (ok sample_pod); Elapse (ms 100); Tick; Run GPoller go;
   Run GPoller (items 1); Run GWaiter go; Run GWaiter go;
   Run GWaiter (fails "delete refused")].

(** The context is cancelled while a [List] is in flight; the coordinator
    takes [ctx.Done()]; the [List] then returns the pod. *)
Definition leak : list event :=
  [Run GMain (ok sample_pod); Run GPoller go; Run GPoller (items 0);
   Run GMain (ok sample_pod); Elapse (ms 100); Tick; Run GPoller go;
   Signal; Run GMain go; Run GPoller (items 1)].

Definition leak_plain : list event :=
  [Run GMain (ok sample_pod); Run GPoller go; Run GWaiter go;
   Run GMain (ok sample_pod); Elapse (ms 100); Tick; Run GPoller go;
   Signal; Run GWaiter go; Run GPoller (items 1)].

(** A signal arrives before any pod is listed; the [Delete] that is then
    issued with the cancelled context fails. *)
Definition cancelled_run : list event :=
  [Run GMain (ok sample_pod); Run GPoller go; Run GWaiter go;
   Run GPoller (items 0); Run GMain (ok sample_pod); Signal; Run GMain go;
   Run GMain (fails "context canceled")].

(** The first [List] of the instrumented version finds nothing; the pod is
    listed on the first tick and everything succeeds, in either version. *)
Definition found_on_first_tick : list event :=
  [Run GMain (ok sample_pod); Run GPoller go; Run GWaiter go;
   Run GPoller (items 0); Run GMain (ok sample_pod);
   Elapse (ms 100); Tick; Run GPoller go; Run GPoller (items 1);
   Run GMain go; Run GWaiter go; Run GPoller go; Run GWaiter go;
   Run GWaiter (ok sample_pod); Run GMain (ok sample_pod)].

Definition default_env : environ := env_with "default" (EmptyString, None).

Definition empty_file_env : environ := env_with EmptyString (EmptyString, None).

(** The polling goroutine is blocked in its send and the goroutine that would
    receive has left its [select]. *)
Definition stuck_I (st : config) : Prop :=
  ppc st = P_send /\ pre_race (mpc st) = false.

Definition stuck_P (st : config) : Prop :=
  ppc st = P_send /\ pre_report (wpc st) = false /\ mpc st <> M_create.

(** The token both versions derive from the bytes [rand.Read] wrote. *)
Definition token (env : environ) : string :=
  EncodeToString (fill_buf (fst (rand_Read env))).


(** ** Further readings of a trace *)

(** A [Delete] (a [Patch]) has returned without error. *)
Fixpoint deleted_in (tr : list (Z * action)) : bool :=
  match tr with
  | [] => false
  | (_, Call (Delete _ _) None _) :: _ => true
  | _ :: tr' => deleted_in tr'
  end.

Fixpoint patched_in (tr : list (Z * action)) : bool :=
  match tr with
  | [] => false
  | (_, Call (Patch _ _ _) None _) :: _ => true
  | _ :: tr' => patched_in tr'
  end.

Definition is_span_start (span : string) (a : action) : bool :=
  match a with
  | SpanStart span' => (span =? span')%string
  | _ => false
  end.

Definition is_span_end (span : string) (a : action) : bool :=
  match a with
  | SpanEnd span' => (span =? span')%string
  | _ => false
  end.

Definition count_actions (p : action -> bool) (tr : list (Z * action)) : nat :=
  Datatypes.length (filter (fun ta => p (snd ta)) tr).

(** How often a span was started and ended. *)
Definition starts (span : string) (st : config) : nat :=
  count_actions (is_span_start span) (trace st).
Definition ends (span : string) (st : config) : nat :=
  count_actions (is_span_end span) (trace st).

(** The polling goroutine holds no ticker: it has not created one yet, or it
    has returned. *)
Definition ticker_idle (pc : poller_pc) : bool :=
  match pc with
  | P_none | P_begin | P_returned => true
  | _ => false
  end.

(** [main] has got past [Patch]. *)
Definition past_patch (pc : main_pc) : bool :=
  match pc with
  | M_select | M_delete | M_exited => true
  | _ => false
  end.

(** What the instrumented version has printed and called, by program point. *)
Definition inv_I_out (st : config) : Prop :=
  (ticker_idle (ppc st) = true -> ticker_on st = false)
  /\ (past_patch (mpc st) = true -> patched_in (trace st) = true)
  /\ (mpc st <> M_create ->
      In ("Created pod " ++ pod_name st) (stdout_lines st))
  /\ (status st = Exited ->
      deleted_in (trace st) = true
      /\ In ("Deleted pod " ++ pod_name st) (stdout_lines st))
  /\ (deleted_in (trace st) = true -> past_patch (mpc st) = true)
  /\ (mpc st = M_create -> status st = Running -> stdout_lines st = []).

(** What the plain version has printed and called, by program point. *)
Definition inv_P_out (st : config) : Prop :=
  (ticker_idle (ppc st) = true -> ticker_on st = false)
  /\ (mpc st <> M_create ->
      In ("Created pod " ++ pod_name st) (stdout_lines st))
  /\ (wpc st = W_send ->
      deleted_in (trace st) = true
      /\ In ("Deleted pod " ++ pod_name st) (stdout_lines st))
  /\ (took GMain ChDone st = 1%nat ->
      deleted_in (trace st) = true
      /\ took GWaiter ChFound st = 1%nat
      /\ Datatypes.length (latencies st) = 1%nat
      /\ In ("Deleted pod " ++ pod_name st) (stdout_lines st))
  /\ (status st = Exited -> In "Context done, exiting..." (stdout_lines st))
  /\ (mpc st = M_create -> status st = Running -> stdout_lines st = []).

(** The spans of the instrumented version, by program point. *)
Definition inv_span_main (st : config) : Prop :=
  (starts "prober.main" st <= 1)%nat
  /\ (status st = Running ->
      starts "prober.main" st = 1%nat /\ ends "prober.main" st = 0%nat)
  /\ (status st = Exited ->
      starts "prober.main" st = 1%nat /\ ends "prober.main" st = 1%nat)
  /\ (ends "prober.main" st <= starts "prober.main" st)%nat.

Definition inv_span_create (st : config) : Prop :=
  (mpc st = M_create -> status st = Running ->
   starts "prober.create-pod" st = 0%nat)
  /\ (mpc st <> M_create ->
      starts "prober.create-pod" st = 1%nat
      /\ ends "prober.create-pod" st = 1%nat)
  /\ (starts "prober.create-pod" st <= 1)%nat
  /\ (ends "prober.create-pod" st <= starts "prober.create-pod" st)%nat.

Definition inv_span_update (st : config) : Prop :=
  (past_patch (mpc st) = false -> status st = Running ->
   starts "prober.update-pod" st = 0%nat)
  /\ (past_patch (mpc st) = true ->
      starts "prober.update-pod" st = 1%nat
      /\ ends "prober.update-pod" st = 1%nat)
  /\ (starts "prober.update-pod" st <= 1)%nat
  /\ (ends "prober.update-pod" st <= starts "prober.update-pod" st)%nat.

Definition inv_span_cleanup (st : config) : Prop :=
  (mpc st <> M_exited -> status st = Running ->
   starts "prober.cleanup" st = 0%nat)
  /\ (mpc st = M_exited ->
      starts "prober.cleanup" st = 1%nat /\ ends "prober.cleanup" st = 1%nat)
  /\ (starts "prober.cleanup" st <= 1)%nat
  /\ (ends "prober.cleanup" st <= starts "prober.cleanup" st)%nat.

Definition inv_span_wait (st : config) : Prop :=
  (polling (ppc st) = false -> starts "prober.wait-for-pod" st = 0%nat)
  /\ (polling (ppc st) = true -> starts "prober.wait-for-pod" st = 1%nat)
  /\ (ppc st = P_returned -> ends "prober.wait-for-pod" st = 1%nat)
  /\ (ppc st <> P_returned -> status st = Running ->
      ends "prober.wait-for-pod" st = 0%nat)
  /\ (ends "prober.wait-for-pod" st <= starts "prober.wait-for-pod" st)%nat
  /\ (mpc st = M_create -> ppc st = P_none).

Definition inv_spans (st : config) : Prop :=
  inv_span_main st /\ inv_span_create st /\ inv_span_update st
  /\ inv_span_cleanup st /\ inv_span_wait st.

(** The context of a run on which no signal arrives is done only once the
    five minutes have passed. *)
Definition is_signal (ev : event) : bool :=
  match ev with Signal => true | _ => false end.

(** Every [ctx.Done()] case was taken at or after [limit]. *)
Fixpoint done_taken_after (limit : Z) (tr : list (Z * action)) : Prop :=
  match tr with
  | [] => True
  | (t, Took _ ChCtxDone) :: tr' => limit <= t /\ done_taken_after limit tr'
  | _ :: tr' => done_taken_after limit tr'
  end.

Definition inv_deadline (st : config) : Prop :=
  ctx_deadline st = runTimeout
  /\ 0 <= clock st
  /\ (ctx_done st = true -> runTimeout <= clock st)
  /\ done_taken_after runTimeout (trace st).

(** The pod is found on the first tick and everything succeeds. *)
Definition found_run : list event :=
  [Run GMain (ok sample_pod); Run GPoller go; Run GWaiter go;
   Run GMain (ok sample_pod); Elapse (ms 100); Tick; Run GPoller go;
   Run GPoller (items 1); Run GWaiter go; Run GWaiter go;
   Run GWaiter (ok sample_pod); Run GMain go].

Definition other_bytes : list byte := [x01; x23; x45; x67; x89; xab; xcd; xee].

Definition env_with_bytes (written : list byte) : environ :=
  {| Getenv := fun _ => EmptyString;
     ReadFile := fun _ => ("kube-system", None);
     otlptrace_New := None;
     resource_New := None;
     InClusterConfig := None;
     NewForConfig := None;
     rand_Read := (written, None) |}.

(** [hex.EncodeToString] read backwards: the value of a digit, and the bytes
    of a string of digits.  This is no part of the program; it is the inverse
    against which the encoding is checked. *)
Definition hexvalue (c : ascii) : option N :=
  match index 0 (String c EmptyString) hextable with
  | Some i => Some (N.of_nat i)
  | None => None
  end.

Fixpoint decode_hex (s : string) : option (list byte) :=
  match s with
  | EmptyString => Some []
  | String hi (String lo rest) =>
      match hexvalue hi, hexvalue lo, decode_hex rest with
      | Some h, Some l, Some bytes =>
          match Byte.of_N (N.lor (N.shiftl h 4) l) with
          | Some b => Some (b :: bytes)
          | None => None
          end
      | _, _, _ => None
      end
  | String _ EmptyString => None
  end.

Definition is_hex_digit (c : ascii) : bool :=
  match hexvalue c with Some _ => true | None => false end.

Fixpoint all_chars (p : ascii -> bool) (s : string) : bool :=
  match s with
  | EmptyString => true
  | String c rest => p c && all_chars p rest
  end.

(** The polling goroutine has returned after [n] calls of [List]. *)
Definition returned_with (n : Z) (st : config) : Prop :=
  mpc st <> M_create /\ ppc st = P_returned /\ ticker_on st = false
  /\ list_calls st = n.


(** ** The polling loop, step by step *)

(** What one step of the polling goroutine does at each point of its loop.
    [step] is the machine, [ns] the namespace of its calls and [after_begin]
    the point the goroutine reaches once it has created its ticker: [P_list]
    when the loop lists before its first tick, [P_wait] when it waits
    first. *)
Definition polling_loop (step : config -> event -> config) (ns : string)
    (after_begin : poller_pc) (st : config) : Prop :=
  forall r : reply,
    let s := step st (Run GPoller r) in
    (ppc st = P_begin ->
     ppc s = after_begin /\ ticker_on s = true
     /\ ticker_next s = clock st + pollInterval)
    /\ (ppc st = P_wait -> tick_ready st = true ->
        ctx_done st = false \/ prefer_done r = false ->
        ppc s = P_list /\ tick_ready s = false
        /\ ticks_taken s = ticks_taken st + 1
        /\ api_sequence s = api_sequence st)
    /\ (ppc st = P_wait -> tick_ready st = false -> ctx_done st = false ->
        s = st)
    /\ (ppc st = P_list ->
        api_sequence s =
        (api_sequence st ++ [List ns (probe_selector (instance st))])%list)
    /\ (ppc st = P_list -> r_err r = None -> r_items r = 0%nat ->
        ppc s = P_wait /\ has_hit (trace s) = has_hit (trace st))
    /\ (ppc st = P_list -> r_err r = None -> (0 < r_items r)%nat ->
        ppc s = P_send /\ has_hit (trace s) = true)
    /\ (ppc st = P_close ->
        ppc s = P_returned /\ found_closed s = true /\ ticker_on s = false).

(** The ticker delivers a tick once its instant has come, and sets its next
    instant one interval later. *)
Definition ticker_fires (step : config -> event -> config) (st : config) : Prop :=
  ticker_on st = true -> ticker_next st <= clock st ->
  tick_ready (step st Tick) = true
  /\ ticker_next (step st Tick) = ticker_next st + pollInterval.

(** Goroutine [g] is at its [select] while the polling goroutine is blocked
    in its send: unless the [select] takes [ctx.Done()], [g] receives the
    signal and the send completes. *)
Definition signal_is_received (step : config -> event -> config)
    (g : goroutine) (st : config) : Prop :=
  forall r : reply,
    ppc st = P_send ->
    ctx_done st = false \/ prefer_done r = false ->
    took g ChFound (step st (Run g r)) = 1%nat
    /\ ppc (step st (Run g r)) = P_close.

(** ** The two versions on one schedule *)

Definition is_main_call (c : api_call) : bool := is_create c || is_patch c.

(** The calls [main] issues before its [select], most recent first. *)
Definition main_calls_of (tr : list (Z * action)) : list api_call :=
  filter is_main_call (calls_of tr).

(** The same, in the order issued. *)
Definition main_calls (st : config) : list api_call :=
  rev (main_calls_of (trace st)).

(** A call moved to another namespace. *)
Definition in_namespace (ns : string) (c : api_call) : api_call :=
  match c with
  | Create _ name labels => Create ns name labels
  | List _ sel => List ns sel
  | Patch _ name body => Patch ns name body
  | Delete _ name => Delete ns name
  end.

(** What the instrumented configuration [si] and the plain configuration [sp]
    share when both were reached on the same schedule: the instance token;
    whether [Create] has returned, its outcome and the name of the object;
    and, while both processes run, the clock, the context, whether [Patch]
    has returned, and the calls of [main] up to its [select]. *)
Definition inv_pair (si sp : config) : Prop :=
  instance si = instance sp
  /\ ctx_deadline si = ctx_deadline sp
  /\ (mpc si = M_create <-> mpc sp = M_create)
  /\ (mpc si = M_create ->
      status si = status sp
      /\ map (in_namespace "default") (main_calls_of (trace si))
         = main_calls_of (trace sp))
  /\ (mpc si <> M_create -> pod_name si = pod_name sp)
  /\ (status si = Running -> status sp = Running ->
      clock si = clock sp /\ ctx_done si = ctx_done sp
      /\ (mpc si = M_patch <-> mpc sp = M_patch)
      /\ map (in_namespace "default") (main_calls_of (trace si))
         = main_calls_of (trace sp)).

(** What a step from a running configuration [st] to [s] does to the part of
    the configuration the two versions share.  When [main] is at its
    [Create] or its [Patch] and the event runs [main], the call is issued in
    namespace [ns] and its reply decides; any other step leaves the calls and
    the progress of [main] up to its [select] as they were. *)
Definition main_move (ns : string) (st s : config) (ev : event) : Prop :=
  instance s = instance st /\ ctx_deadline s = ctx_deadline st
  /\ clock s = clock (world st ev) /\ ctx_done s = ctx_done (world st ev)
  /\ match ev, mpc st with
     | Run GMain r, M_create =>
         main_calls_of (trace s) =
         Create ns (probe_name (instance st)) base_labels
           :: main_calls_of (trace st)
         /\ match r_err r with
            | Some e => status s = Panicked e /\ mpc s = M_create
            | None =>
                status s = Running /\ mpc s = M_patch
                /\ pod_name s = r_name r
            end
     | Run GMain r, M_patch =>
         main_calls_of (trace s) =
         Patch ns (pod_name st) (probe_patch (instance st))
           :: main_calls_of (trace st)
         /\ pod_name s = pod_name st
         /\ match r_err r with
            | Some e => status s = Panicked e /\ mpc s = M_patch
            | None => status s = Running /\ mpc s = M_select
            end
     | _, _ =>
         main_calls_of (trace s) = main_calls_of (trace st)
         /\ pod_name s = pod_name st
         /\ (mpc s = M_create <-> mpc st = M_create)
         /\ (mpc s = M_patch <-> mpc st = M_patch)
         /\ (mpc st = M_create -> status s = Running)
     end.


(** ** Runs *)

Arguments probe_name : simpl never.
Arguments probe_selector : simpl never.
Arguments probe_patch : simpl never.
Arguments String.append : simpl never.
Arguments Milliseconds : simpl never.
Arguments Since : simpl never.
Arguments Z.add : simpl never.
Arguments Z.sub : simpl never.
Arguments Z.mul : simpl never.
Arguments Z.leb : simpl never.
Arguments Z.of_nat : simpl never.

Lemma instrumented_frozen (st : config) (evs : list event) :
  status st <> Running -> Instrumented.run_from st evs = st.
Proof.
  intros H. unfold Instrumented.run_from.
  induction evs as [| ev evs IH]; simpl; [reflexivity |].
  replace (Instrumented.step st ev) with st; [exact IH |].
  unfold Instrumented.step. destruct (status st); congruence.
Qed.

Lemma plain_frozen (st : config) (evs : list event) :
  status st <> Running -> Plain.run_from st evs = st.
Proof.
  intros H. unfold Plain.run_from.
  induction evs as [| ev evs IH]; simpl; [reflexivity |].
  replace (Plain.step st ev) with st; [exact IH |].
  unfold Plain.step. destruct (status st); congruence.
Qed.

Lemma instrumented_run_app (env : environ) (evs evs' : list event) :
  Instrumented.run env (evs ++ evs') =
  Instrumented.run_from (Instrumented.run env evs) evs'.
Proof. unfold Instrumented.run, Instrumented.run_from. apply fold_left_app. Qed.

Lemma plain_run_app (env : environ) (evs evs' : list event) :
  Plain.run env (evs ++ evs') = Plain.run_from (Plain.run env evs) evs'.
Proof. unfold Plain.run, Plain.run_from. apply fold_left_app. Qed.

(** Induction over the reachable configurations. *)
Lemma instrumented_reachable (P : config -> Prop) (env : environ) :
  P (Instrumented.boot env) ->
  (forall st ev, P st -> P (Instrumented.step st ev)) ->
  forall evs, P (Instrumented.run env evs).
Proof.
  intros Hboot Hstep evs. induction evs as [| ev evs IH] using rev_ind.
  - exact Hboot.
  - rewrite instrumented_run_app. simpl. apply Hstep, IH.
Qed.

Lemma plain_reachable (P : config -> Prop) (env : environ) :
  P (Plain.boot env) ->
  (forall st ev, P st -> P (Plain.step st ev)) ->
  forall evs, P (Plain.run env evs).
Proof.
  intros Hboot Hstep evs. induction evs as [| ev evs IH] using rev_ind.
  - exact Hboot.
  - rewrite plain_run_app. simpl. apply Hstep, IH.
Qed.

Lemma instrumented_run_from_reachable (P : config -> Prop) (st : config) :
  P st ->
  (forall st ev, P st -> P (Instrumented.step st ev)) ->
  forall evs, P (Instrumented.run_from st evs).
Proof.
  intros H0 Hstep evs. revert st H0. unfold Instrumented.run_from.
  induction evs as [| ev evs IH]; simpl; intros st H0; [exact H0 |].
  apply IH, Hstep, H0.
Qed.

Lemma plain_run_from_reachable (P : config -> Prop) (st : config) :
  P st ->
  (forall st ev, P st -> P (Plain.step st ev)) ->
  forall evs, P (Plain.run_from st evs).
Proof.
  intros H0 Hstep evs. revert st H0. unfold Plain.run_from.
  induction evs as [| ev evs IH]; simpl; intros st H0; [exact H0 |].
  apply IH, Hstep, H0.
Qed.

(** ** The invariants hold *)

Ltac break_match :=
  match goal with
  | |- context [match ?x with _ => _ end] =>
      lazymatch x with
      | context [match _ with _ => _ end] => fail
      | _ => destruct x eqn:?
      end
  end.

Ltac unfold_machine :=
  unfold Instrumented.step, Instrumented.main_step, Instrumented.poller_step,
    Instrumented.poller_return, Instrumented.poller_panic,
    Instrumented.poller_deferred, Instrumented.main_panic,
    Plain.step, Plain.main_step, Plain.poller_step, Plain.waiter_step,
    Plain.poller_return, Plain.poller_panic,
    world, select2, receive_found, found_ready, sender_waiting, must, crash,
    NewTicker, ticker_Stop, emit,
    set_status, set_mpc, set_ppc, set_wpc, set_clock, set_ctx_done, set_ticker,
    set_tick_ready, set_found_closed, set_identity, set_pod_name,
    set_wait_start in *.

Ltac unfold_inv :=
  unfold inv_I, inv_P, inv_I_main, inv_P_main, inv_calls, inv_latency,
    inv_poll, list_calls, ticks_taken, count_calls, took,
    latencies, pod_created, about_to_list in *.

Ltac run_step :=
  cbv beta iota zeta delta
    [Instrumented.step Instrumented.main_step Instrumented.poller_step
     Instrumented.poller_return Instrumented.poller_panic
     Instrumented.poller_deferred Instrumented.main_panic
     Plain.step Plain.main_step Plain.poller_step Plain.waiter_step
     Plain.poller_return Plain.poller_panic
     world select2 receive_found found_ready sender_waiting must crash
     NewTicker ticker_Stop emit
     set_status set_mpc set_ppc set_wpc set_clock set_ctx_done set_ticker
     set_tick_ready set_found_closed set_identity set_pod_name set_wait_start
     status mpc ppc wpc clock ctx_deadline ctx_done ticker_on ticker_next
     tick_ready found_closed namespace instance pod_name wait_start trace
     fst snd andb orb].

Ltac tidy :=
  repeat match goal with
  | H : _ /\ _ |- _ => destruct H
  | H : ?a = ?a -> _ |- _ => specialize (H eq_refl)
  | H : ?a = ?b -> ?c |- _ =>
      lazymatch c with False => fail | _ => idtac end;
      let X := fresh in
      assert (X : a = b -> False) by discriminate; clear X H
  | H : ?a <> ?b -> _ |- _ =>
      let X := fresh in
      assert (X : a <> b) by discriminate; specialize (H X); clear X
  | H : ?a <> ?a -> _ |- _ => clear H
  | H : ?a = ?a |- _ => clear H
  | H : True |- _ => clear H
  | H : calls_of ?tr = [] |- _ => rewrite H in *; clear H
  | H : latencies_of ?tr = [] |- _ => rewrite H in *; clear H
  end.

(** Split a configuration into its fields and an event into its cases, and
    compute the step in each case. *)
Ltac cases_of_step st ev H :=
  destruct st as [status mpc ppc wpc clock deadline done ton tnext tready
                  fclosed ns inst pod wstart tr];
  intros H;
  destruct status;
    [| solve [exact H | decompose [and] H; assumption]
     | solve [exact H | decompose [and] H; assumption]];
  destruct ev as [d | | | | [| |] r];
  run_step;
  repeat (break_match; try discriminate);
  unfold_inv; simpl in *; tidy.

Ltac use_hyps :=
  repeat match goal with
  | H : ?a = ?b -> _, H' : ?a = ?b |- _ => specialize (H H')
  | H : (_ <=? _) = true |- _ => apply Z.leb_le in H
  | H : (_ <=? _) = false |- _ => apply Z.leb_gt in H
  | H : Nat.ltb _ _ = _ |- _ => rewrite H in *; clear H
  end.

Ltac close_with_cases :=
  repeat match goal with
         | |- context [match ?x with _ => _ end] => is_var x; destruct x
         | H : context [match ?x with _ => _ end] |- _ => is_var x; destruct x
         | |- context [b2z ?x] => is_var x; destruct x
         | H : context [b2z ?x] |- _ => is_var x; destruct x
         | |- context [has_hit ?t] => is_var t; destruct (has_hit t)
         | H : context [has_hit ?t] |- _ => is_var t; destruct (has_hit t)
         end;
  simpl in *; tidy; use_hyps; tidy;
  unfold b2z, at_list, pollInterval, Millisecond in *;
  repeat split;
  try (match goal with |- ?x = _ => is_var x; destruct x end; tidy);
  first [assumption | discriminate | congruence | lia | auto; fail].

Ltac close_goal :=
  intros; subst; tidy; simpl in *; tidy; use_hyps; tidy;
  first [ assumption | discriminate | congruence | lia
        | (repeat split; first [assumption | congruence | lia | auto; fail])
        | close_with_cases ].

Ltac split_all :=
  repeat match goal with |- _ /\ _ => split end; try assumption.

Lemma inv_I_main_step (st : config) (ev : event) :
  inv_I_main st -> inv_I_main (Instrumented.step st ev).
Proof. cases_of_step st ev H; split_all; close_goal. Qed.

Lemma inv_P_main_step (st : config) (ev : event) :
  inv_P_main st -> inv_P_main (Plain.step st ev).
Proof. cases_of_step st ev H; split_all; close_goal. Qed.

Lemma inv_I_calls_step (st : config) (ev : event) :
  inv_calls (namespace st) st ->
  inv_calls (namespace (Instrumented.step st ev)) (Instrumented.step st ev).
Proof. cases_of_step st ev H; split_all; close_goal. Qed.

Lemma inv_P_calls_step (st : config) (ev : event) :
  inv_P_main st /\ inv_calls "default" st ->
  inv_calls "default" (Plain.step st ev).
Proof. cases_of_step st ev H; split_all; close_goal. Qed.

Lemma inv_latency_step (st : config) (ev : event) :
  inv_P_main st /\ inv_latency st -> inv_latency (Plain.step st ev).
Proof. cases_of_step st ev H; split_all; close_goal. Qed.

Lemma inv_I_poll_step (st : config) (ev : event) :
  inv_I_main st /\ inv_poll 1 GMain st ->
  inv_poll 1 GMain (Instrumented.step st ev).
Proof. cases_of_step st ev H; split_all; close_goal. Qed.

Lemma inv_P_poll_step (st : config) (ev : event) :
  inv_P_main st /\ inv_poll 0 GWaiter st ->
  inv_poll 0 GWaiter (Plain.step st ev).
Proof. cases_of_step st ev H; split_all; close_goal. Qed.

Lemma inv_I_step (st : config) (ev : event) :
  inv_I st -> inv_I (Instrumented.step st ev).
Proof.
  intros (Hm & Hc & Hp). split; [| split].
  - apply inv_I_main_step, Hm.
  - apply inv_I_calls_step, Hc.
  - apply inv_I_poll_step. split; assumption.
Qed.

Lemma inv_P_step (st : config) (ev : event) :
  inv_P st -> inv_P (Plain.step st ev).
Proof.
  intros (Hm & Hc & Hl & Hp). split; [| split; [| split]].
  - apply inv_P_main_step, Hm.
  - apply inv_P_calls_step. split; assumption.
  - apply inv_latency_step. split; assumption.
  - apply inv_P_poll_step. split; assumption.
Qed.

Lemma inv_I_boot (env : environ) : inv_I (Instrumented.boot env).
Proof.
  unfold Instrumented.boot, Instrumented.main_panic, bind, must, initial.
  repeat (break_match; try discriminate);
    run_step; unfold inv_I; unfold_inv; simpl;
    unfold b2z, pollInterval, Millisecond;
    repeat split; intros; try discriminate; try congruence; try lia; auto.
Qed.

Lemma inv_P_boot (env : environ) : inv_P (Plain.boot env).
Proof.
  unfold Plain.boot, bind, must, initial.
  repeat (break_match; try discriminate);
    run_step; unfold inv_P; unfold_inv; simpl;
    unfold b2z, pollInterval, Millisecond;
    repeat split; intros; try discriminate; try congruence; try lia; auto.
Qed.

(** Every configuration a schedule reaches satisfies the invariant. *)
Lemma inv_I_run (env : environ) (evs : list event) :
  inv_I (Instrumented.run env evs).
Proof.
  apply instrumented_reachable; [apply inv_I_boot | apply inv_I_step].
Qed.

Lemma inv_P_run (env : environ) (evs : list event) :
  inv_P (Plain.run env evs).
Proof.
  apply plain_reachable; [apply inv_P_boot | apply inv_P_step].
Qed.

(** ** Reading the invariants *)

Lemma calls_wf_In (ns inst pod : string) (tr : list (Z * action)) (c : api_call) :
  calls_wf ns inst pod tr -> In c (calls_of tr) -> call_wf ns inst pod c.
Proof.
  induction tr as [| [t a] tr IH]; simpl; [tauto |].
  destruct a; simpl; auto.
  intros [Hc Htr] [Heq | Hin]; [subst; exact Hc | auto].
Qed.

Lemma api_sequence_In (st : config) (c : api_call) :
  In c (api_sequence st) <-> In c (calls_of (trace st)).
Proof. unfold api_sequence. symmetry. apply in_rev. Qed.

Lemma count_delete_I (st : config) :
  inv_I_main st -> (count_calls is_delete st <= 1)%nat.
Proof.
  unfold inv_I_main. intros H. decompose [and] H; clear H.
  destruct (mpc st) eqn:E; simpl in *; tidy; lia.
Qed.

Lemma count_delete_P (st : config) :
  inv_P_main st ->
  (count_calls is_delete st <= 1)%nat
  /\ (count_calls is_delete st <= took GWaiter ChFound st)%nat.
Proof.
  unfold inv_P_main. intros H. decompose [and] H; clear H.
  destruct (wpc st) eqn:E; simpl in *; tidy; lia.
Qed.


(** The identity of a run never changes after the prelude. *)
Lemma instrumented_identity (st : config) (ev : event) :
  namespace (Instrumented.step st ev) = namespace st
  /\ instance (Instrumented.step st ev) = instance st.
Proof.
  destruct st as [status mpc ppc wpc clock deadline done ton tnext tready
                  fclosed ns inst pod wstart tr].
  destruct status; [| split; reflexivity | split; reflexivity].
  destruct ev as [d | | | | [| |] r]; run_step;
    repeat (break_match; try discriminate); simpl; split; reflexivity.
Qed.

Lemma plain_identity (st : config) (ev : event) :
  instance (Plain.step st ev) = instance st.
Proof.
  destruct st as [status mpc ppc wpc clock deadline done ton tnext tready
                  fclosed ns inst pod wstart tr].
  destruct status; [| reflexivity | reflexivity].
  destruct ev as [d | | | | [| |] r]; run_step;
    repeat (break_match; try discriminate); simpl; reflexivity.
Qed.

Lemma instrumented_run_identity (env : environ) (evs : list event) :
  namespace (Instrumented.run env evs) = namespace (Instrumented.boot env)
  /\ instance (Instrumented.run env evs) = instance (Instrumented.boot env).
Proof.
  apply instrumented_reachable; [split; reflexivity |].
  intros st ev [Hn Hi]. destruct (instrumented_identity st ev) as [Hn' Hi'].
  split; congruence.
Qed.

Lemma plain_run_identity (env : environ) (evs : list event) :
  instance (Plain.run env evs) = instance (Plain.boot env).
Proof.
  apply plain_reachable; [reflexivity |].
  intros st ev Hi. rewrite plain_identity. exact Hi.
Qed.

(** What the prelude of the instrumented version leaves behind. *)
Lemma instrumented_boot_running (env : environ) :
  status (Instrumented.boot env) = Running ->
  currentNamespace env = (namespace (Instrumented.boot env), None)
  /\ instance (Instrumented.boot env) = token env
  /\ initOpenTelemetry env = Value tt
  /\ InClusterConfig env = None /\ NewForConfig env = None
  /\ snd (rand_Read env) = None.
Proof.
  unfold Instrumented.boot, Instrumented.main_panic, bind, must, token.
  destruct (initOpenTelemetry env) as [[] | m]; simpl; [| discriminate].
  destruct (InClusterConfig env); simpl; [discriminate |].
  destruct (NewForConfig env); simpl; [discriminate |].
  destruct (currentNamespace env) as [ns [e |]]; simpl; [discriminate |].
  destruct (snd (rand_Read env)); simpl; [discriminate |].
  intros _. repeat split; reflexivity.
Qed.

Lemma instrumented_boot_no_calls (env : environ) :
  calls_of (trace (Instrumented.boot env)) = [].
Proof.
  unfold Instrumented.boot, Instrumented.main_panic, bind, must.
  repeat (break_match; try discriminate); reflexivity.
Qed.

Lemma plain_boot_running (env : environ) :
  status (Plain.boot env) = Running ->
  instance (Plain.boot env) = token env
  /\ InClusterConfig env = None /\ NewForConfig env = None
  /\ snd (rand_Read env) = None.
Proof.
  unfold Plain.boot, bind, must, token.
  destruct (InClusterConfig env); simpl; [discriminate |].
  destruct (NewForConfig env); simpl; [discriminate |].
  destruct (snd (rand_Read env)); simpl; [discriminate |].
  intros _. repeat split; reflexivity.
Qed.

Lemma instrumented_crashed_boot (env : environ) (evs : list event) :
  status (Instrumented.boot env) <> Running ->
  Instrumented.run env evs = Instrumented.boot env.
Proof. intros H. apply instrumented_frozen, H. Qed.

Lemma plain_crashed_boot (env : environ) (evs : list event) :
  status (Plain.boot env) <> Running ->
  Plain.run env evs = Plain.boot env.
Proof. intros H. apply plain_frozen, H. Qed.

(** ** Cleanup *)

(** The step [main] takes after its [select], in the instrumented version. *)
Lemma delete_is_next (st : config) (r : reply) :
  inv_I_main st -> status st = Running -> mpc st = M_delete ->
  count_calls is_delete (Instrumented.step st (Run GMain r)) = 1%nat.
Proof.
  destruct st as [status mpc ppc wpc clock deadline done ton tnext tready
                  fclosed ns inst pod wstart tr].
  unfold_inv. simpl. intros H Hs Hm. subst.
  decompose [and] H; clear H. tidy.
  run_step. destruct (r_err r); simpl; congruence.
Qed.



(** ** The latency value *)






(** ** Failing remote calls *)




(** C4, as amended.  A [Delete] that returns an error panics with the error's
    message.  The call has been made and the run is aborted: whatever
    happens next, [main] does not return, no further [Delete] is issued and
    no [Deleted pod] line is printed by the failing call or after it.  In
    the plain version, where the panic is raised in the measuring goroutine,
    [main] never receives from [done]. *)
Theorem delete_error_ends_the_process (st : config) (r : reply) (e : string) :
  status st = Running -> r_err r = Some e ->
  (mpc st = M_delete ->
   let s := Instrumented.step st (Run GMain r) in
   status s = Panicked e
   /\ count_calls is_delete s = S (count_calls is_delete st)
   /\ forall evs,
       let s' := Instrumented.run_from s evs in
       status s' <> Running /\ status s' <> Exited
       /\ count_calls is_delete s' = count_calls is_delete s
       /\ (In ("Deleted pod " ++ pod_name st) (stdout_lines s') ->
           In ("Deleted pod " ++ pod_name st) (stdout_lines st)))
  /\ (wpc st = W_delete ->
      let s := Plain.step st (Run GWaiter r) in
      status s = Panicked e
      /\ count_calls is_delete s = S (count_calls is_delete st)
      /\ forall evs,
          let s' := Plain.run_from s evs in
          status s' <> Running /\ status s' <> Exited
          /\ count_calls is_delete s' = count_calls is_delete s
          /\ took GMain ChDone s' = took GMain ChDone st
          /\ (In ("Deleted pod " ++ pod_name st) (stdout_lines s') ->
              In ("Deleted pod " ++ pod_name st) (stdout_lines st))).
Proof.
  destruct st as [sts mpc ppc wpc clock deadline done ton tnext tready
                  fclosed ns inst pod wstart tr].
  simpl. intros -> He. split; intros ->.
  - assert (Hs : status
                   (Instrumented.step
                      (mkConfig Running M_delete ppc wpc clock deadline done ton
                         tnext tready fclosed ns inst pod wstart tr)
                      (Run GMain r)) = Panicked e).
    { run_step. rewrite He. reflexivity. }
    split; [exact Hs |].
    split; [run_step; rewrite He; reflexivity |].
    intros evs. rewrite instrumented_frozen; [| rewrite Hs; discriminate].
    split; [rewrite Hs; discriminate |].
    split; [rewrite Hs; discriminate |]. split; [reflexivity |].
    unfold stdout_lines. run_step. rewrite He. simpl. exact (fun H => H).
  - assert (Hs : status
                   (Plain.step
                      (mkConfig Running mpc ppc W_delete clock deadline done ton
                         tnext tready fclosed ns inst pod wstart tr)
                      (Run GWaiter r)) = Panicked e).
    { run_step. rewrite He. reflexivity. }
    split; [exact Hs |].
    split; [run_step; rewrite He; reflexivity |].
    intros evs. rewrite plain_frozen; [| rewrite Hs; discriminate].
    split; [rewrite Hs; discriminate |].
    split; [rewrite Hs; discriminate |]. split; [reflexivity |].
    split; [run_step; rewrite He; reflexivity |].
    unfold stdout_lines. run_step. rewrite He. simpl. exact (fun H => H).
Qed.

Lemma delete_error_ends_the_process_witness :
  (status (Instrumented.run sample_env (removelast delete_refused)) = Running
   /\ r_err (fails "delete refused") = Some "delete refused"
   /\ mpc (Instrumented.run sample_env (removelast delete_refused)) = M_delete)
  /\ status (Instrumented.step
               (Instrumented.run sample_env (removelast delete_refused))
               (Run GMain (fails "delete refused")))
     = Panicked "delete refused".
Proof.
  split; [repeat split; reflexivity |].
  exact (proj1 (proj1 (delete_error_ends_the_process
                         (Instrumented.run sample_env (removelast delete_refused))
                         (fails "delete refused") "delete refused"
                         eq_refl eq_refl) eq_refl)).
Defined.

(** C4, as stated, fails.  In the instrumented run the race was decided by
    the deadline, in the plain run by [found] (the latency line was printed);
    in both the failing [Delete] aborts the process: the run ends by a panic
    instead of returning, [Deleted pod] is not printed, and in the plain
    version [main] is still at its [select]. *)
Lemma delete_error_is_a_process_abort :
  (let s := Instrumented.run sample_env delete_refused in
   took GMain ChCtxDone s = 1%nat /\ status s = Panicked "delete refused"
   /\ count_calls is_delete s = 1%nat
   /\ existsb (String.eqb ("Deleted pod " ++ sample_pod)) (stdout_lines s) = false)
  /\ (let s := Plain.run sample_env delete_refused_plain in
      took GWaiter ChFound s = 1%nat /\ latencies s = [100]
      /\ status s = Panicked "delete refused"
      /\ count_calls is_delete s = 1%nat
      /\ took GMain ChDone s = 0%nat /\ took GMain ChCtxDone s = 0%nat
      /\ existsb (String.eqb ("Deleted pod " ++ sample_pod)) (stdout_lines s) = false).
Proof. vm_compute. repeat split; reflexivity. Qed.

(** C5, as amended.  A [Patch] that returns an error panics through [must] and
    ends the process: [main] never reaches its [select], in either version;
    in the instrumented version no [Delete] is ever issued. *)
Theorem patch_error_ends_the_process
  (env : environ) (evs : list event) (r : reply) (e : string) :
  r_err r = Some e ->
  (let st := Instrumented.run env evs in
   status st = Running -> mpc st = M_patch ->
   let s := Instrumented.step st (Run GMain r) in
   status s = Panicked e
   /\ forall evs',
       let s' := Instrumented.run_from s evs' in
       mpc s' = M_patch /\ count_calls is_delete s' = 0%nat
       /\ took GMain ChFound s' = 0%nat /\ took GMain ChCtxDone s' = 0%nat)
  /\ (let st := Plain.run env evs in
      status st = Running -> mpc st = M_patch ->
      let s := Plain.step st (Run GMain r) in
      status s = Panicked e
      /\ forall evs',
          let s' := Plain.run_from s evs' in
          mpc s' = M_patch
          /\ took GMain ChDone s' = 0%nat /\ took GMain ChCtxDone s' = 0%nat).
Proof.
  intros He. split.
  - intros st Hs Hm s.
    destruct (inv_I_run env evs) as (Im & _). fold st in Im.
    assert (Hst : status s = Panicked e /\ mpc s = M_patch
                  /\ count_calls is_delete s = 0%nat
                  /\ took GMain ChFound s = 0%nat
                  /\ took GMain ChCtxDone s = 0%nat).
    { subst s. revert Im Hs Hm. generalize st. clear st.
      intros [status mpc ppc wpc clock deadline done ton tnext tready
              fclosed ns inst pod wstart tr].
      unfold_inv. simpl. intros H -> ->. simpl in H.
      decompose [and] H; clear H. tidy.
      run_step. rewrite He. simpl. repeat split; try reflexivity; assumption. }
    destruct Hst as (H1 & H2).
    split; [exact H1 |]. intros evs' s'.
    subst s'. rewrite instrumented_frozen; [exact H2 |].
    rewrite H1. discriminate.
  - intros st Hs Hm s.
    destruct (inv_P_run env evs) as (Pm & _). fold st in Pm.
    assert (Hst : status s = Panicked e /\ mpc s = M_patch
                  /\ took GMain ChDone s = 0%nat
                  /\ took GMain ChCtxDone s = 0%nat).
    { subst s. revert Pm Hs Hm. generalize st. clear st.
      intros [status mpc ppc wpc clock deadline done ton tnext tready
              fclosed ns inst pod wstart tr].
      unfold_inv. simpl. intros H -> ->. simpl in H.
      decompose [and] H; clear H. tidy.
      run_step. rewrite He. simpl. repeat split; try reflexivity; assumption. }
    destruct Hst as (H1 & H2).
    split; [exact H1 |]. intros evs' s'.
    subst s'. rewrite plain_frozen; [exact H2 |].
    rewrite H1. discriminate.
Qed.

Lemma patch_error_ends_the_process_witness :
  r_err (fails "patch refused") = Some "patch refused"
  /\ status (Instrumented.step
               (Instrumented.run sample_env [Run GMain (ok sample_pod)])
               (Run GMain (fails "patch refused")))
     = Panicked "patch refused".
Proof.
  split; [reflexivity |].
  exact (proj1 (proj1 (patch_error_ends_the_process sample_env
                         [Run GMain (ok sample_pod)]
                         (fails "patch refused") "patch refused" eq_refl)
                 eq_refl eq_refl)).
Defined.

(** C5, as stated, fails: after the failing [Patch] the process has crashed;
    the deadline passing and further scheduling change nothing, [main] never
    takes a case of its [select]. *)
Lemma patch_error_is_a_process_abort :
  (let s := Instrumented.run sample_env (patch_refused ++ after_list_refused) in
   pod_created s = true /\ status s = Panicked "patch refused"
   /\ mpc s = M_patch
   /\ took GMain ChFound s = 0%nat /\ took GMain ChCtxDone s = 0%nat)
  /\ (let s := Plain.run sample_env (patch_refused ++ after_list_refused) in
      pod_created s = true /\ status s = Panicked "patch refused"
      /\ mpc s = M_patch
      /\ took GMain ChDone s = 0%nat /\ took GMain ChCtxDone s = 0%nat).
Proof. vm_compute. repeat split; reflexivity. Qed.

(** ** The polling goroutine *)

Lemma stuck_I_step (st : config) (ev : event) :
  stuck_I st -> stuck_I (Instrumented.step st ev).
Proof.
  destruct st as [status mpc ppc wpc clock deadline done ton tnext tready
                  fclosed ns inst pod wstart tr].
  unfold stuck_I. simpl. intros [-> Hm].
  destruct status; [| split; [reflexivity | exact Hm] ..].
  destruct ev as [d | | | | [| |] r]; run_step;
    repeat (break_match; try discriminate); simpl in *;
    split; first [reflexivity | assumption | congruence].
Qed.

Lemma stuck_P_step (st : config) (ev : event) :
  stuck_P st -> stuck_P (Plain.step st ev).
Proof.
  destruct st as [status mpc ppc wpc clock deadline done ton tnext tready
                  fclosed ns inst pod wstart tr].
  unfold stuck_P. simpl. intros (-> & Hm & Hc).
  destruct status; [| repeat split; assumption ..].
  destruct ev as [d | | | | [| |] r]; run_step;
    repeat (break_match; try discriminate); simpl in *;
    repeat split; first [reflexivity | assumption | congruence].
Qed.

(** C6: the code does not do what the claim says.  The context is cancelled
    while a [List] is in flight and the receiving goroutine takes
    [ctx.Done()]; the [List] then returns a pod and the polling goroutine
    blocks in [found <- struct{}{}].  Whatever happens next, it stays there:
    it never returns. *)
Theorem poller_blocks_in_send_forever (evs : list event) :
  (ctx_done (Instrumented.run sample_env leak) = true
   /\ took GMain ChCtxDone (Instrumented.run sample_env leak) = 1%nat
   /\ ppc (Instrumented.run sample_env (leak ++ evs)) = P_send)
  /\ (ctx_done (Plain.run sample_env leak_plain) = true
      /\ took GWaiter ChCtxDone (Plain.run sample_env leak_plain) = 1%nat
      /\ ppc (Plain.run sample_env (leak_plain ++ evs)) = P_send).
Proof.
  split; (split; [reflexivity |]); (split; [reflexivity |]).
  - rewrite instrumented_run_app.
    apply (instrumented_run_from_reachable stuck_I);
      [split; reflexivity | apply stuck_I_step].
  - rewrite plain_run_app.
    apply (plain_run_from_reachable stuck_P);
      [repeat split; discriminate | apply stuck_P_step].
Qed.

Lemma poll_facts (first : Z) (g : goroutine) (st : config) :
  inv_poll first g st -> 0 <= first <= 1 ->
  (ticks_taken st + first <= list_calls st + 1
   /\ list_calls st <= ticks_taken st + first)
  /\ list_calls st * pollInterval <= clock st + first * pollInterval
  /\ loop_ends_at_hit (trace st) = true
  /\ (has_hit (trace st) = true ->
      (ppc st = P_send /\ took g ChFound st = 0%nat)
      \/ ((ppc st = P_close \/ ppc st = P_returned)
          /\ took g ChFound st = 1%nat))
  /\ (has_hit (trace st) = false -> took g ChFound st = 0%nat)
  /\ (took g ChFound st <= 1)%nat.
Proof.
  unfold inv_poll.
  intros (Hclk & Hnp & Hpl & Hloop & Hhit & Hnohit & Hsend & Hclose & Hret & _).
  intros Hf.
  assert (Hb : forall b, 0 <= b2z b <= 1) by (intros []; simpl; lia).
  pose proof (Hb (tick_ready st)). pose proof (Hb (about_to_list st)).
  assert (Ha : 0 <= at_list (ppc st) <= 1) by (destruct (ppc st); simpl; lia).
  assert (Hcases : has_hit (trace st) = true ->
            (ppc st = P_send /\ took g ChFound st = 0%nat)
            \/ ((ppc st = P_close \/ ppc st = P_returned)
                /\ took g ChFound st = 1%nat)).
  { intros Hh. pose proof (Hhit Hh) as Hp.
    destruct (ppc st) eqn:E; simpl in Hp; try discriminate.
    - left. split; [reflexivity | apply Hsend; reflexivity].
    - right. split; [left; reflexivity | apply Hclose; reflexivity].
    - right. split; [right; reflexivity | apply Hret; [reflexivity | exact Hh]]. }
  split; [| split; [| split; [assumption | split; [exact Hcases | split; [assumption |]]]]].
  - destruct (polling (ppc st)) eqn:E;
      [destruct (Hpl eq_refl) as (? & ? & ? & ?)
      | destruct (Hnp eq_refl) as (? & ? & _)]; lia.
  - destruct (polling (ppc st)) eqn:E;
      [destruct (Hpl eq_refl) as (? & ? & ? & ?)
      | destruct (Hnp eq_refl) as (? & ? & _)];
      unfold pollInterval, Millisecond in *; lia.
  - destruct (has_hit (trace st)) eqn:Hh.
    + destruct (Hcases eq_refl) as [[_ ->] | [_ ->]]; lia.
    + rewrite (Hnohit eq_refl). lia.
Qed.

Ltac loop_step :=
  repeat split; intros; subst;
  repeat match goal with
         | H : (0 < _)%nat |- _ => apply Nat.ltb_lt in H
         end;
  run_step;
  repeat match goal with
         | H : _ = _ |- _ => rewrite H
         | H : _ \/ _ |- _ => destruct H
         end;
  simpl; try reflexivity;
  repeat (break_match; try discriminate); simpl; try reflexivity; try lia;
  try match goal with
      | H : ?x = true |- context [?x] => rewrite H; reflexivity
      end.

Lemma polling_loop_I (st : config) :
  status st = Running ->
  polling_loop Instrumented.step (namespace st) P_list st.
Proof.
  destruct st as [sts mpc ppc wpc clock deadline done ton tnext tready
                  fclosed ns inst pod wstart tr].
  unfold polling_loop, ticks_taken, took, api_sequence. simpl.
  intros -> r. loop_step.
Qed.

Lemma polling_loop_P (st : config) :
  status st = Running -> polling_loop Plain.step "default" P_wait st.
Proof.
  destruct st as [sts mpc ppc wpc clock deadline done ton tnext tready
                  fclosed ns inst pod wstart tr].
  unfold polling_loop, ticks_taken, took, api_sequence. simpl.
  intros -> r. loop_step.
Qed.

Lemma ticker_fires_I (st : config) :
  status st = Running -> ticker_fires Instrumented.step st.
Proof.
  destruct st as [sts mpc ppc wpc clock deadline done ton tnext tready
                  fclosed ns inst pod wstart tr].
  unfold ticker_fires. simpl. intros -> -> Hle.
  apply Z.leb_le in Hle. run_step. rewrite Hle. simpl. split; reflexivity.
Qed.

Lemma ticker_fires_P (st : config) :
  status st = Running -> ticker_fires Plain.step st.
Proof.
  destruct st as [sts mpc ppc wpc clock deadline done ton tnext tready
                  fclosed ns inst pod wstart tr].
  unfold ticker_fires. simpl. intros -> -> Hle.
  apply Z.leb_le in Hle. run_step. rewrite Hle. simpl. split; reflexivity.
Qed.

Lemma signal_is_received_I (st : config) :
  inv_poll 1 GMain st -> status st = Running -> mpc st = M_select ->
  signal_is_received Instrumented.step GMain st.
Proof.
  destruct st as [sts mpc ppc wpc clock deadline done ton tnext tready
                  fclosed ns inst pod wstart tr].
  unfold signal_is_received, inv_poll. simpl.
  intros H -> -> r -> Hc. decompose [and] H; clear H. tidy.
  run_step. destruct Hc as [-> | ->]; simpl;
    repeat (break_match; try discriminate);
    unfold took in *; simpl in *; split; congruence.
Qed.

Lemma signal_is_received_P (st : config) :
  inv_poll 0 GWaiter st -> status st = Running -> wpc st = W_select ->
  signal_is_received Plain.step GWaiter st.
Proof.
  destruct st as [sts mpc ppc wpc clock deadline done ton tnext tready
                  fclosed ns inst pod wstart tr].
  unfold signal_is_received, inv_poll. simpl.
  intros H -> -> r -> Hc. decompose [and] H; clear H. tidy.
  run_step. destruct Hc as [-> | ->]; simpl;
    repeat (break_match; try discriminate);
    unfold took in *; simpl in *; split; congruence.
Qed.

(** C7.  Every [List] of the polling goroutine carries the selector
    [probe-instance=<instance>] and the namespace of the run.  The loop is
    paced by a ticker of 100ms: the goroutine creates it when it starts, waits
    while no tick is ready, takes a tick that is ready and then issues one
    [List]: one [List] for each tick taken (and, in the instrumented version,
    one before the first tick), so that by time [t] at most [t / 100ms] calls
    were issued (plus the first one).  A [List] that returns no pod sends the
    goroutine back to wait for a tick.  A [List] that returns a pod takes it
    to its send on [found] at once, and nothing of the loop happens again,
    neither a [List] nor a wait for a tick.  The goroutine at the other end,
    at its [select], receives the signal unless it takes [ctx.Done()]; the
    polling goroutine then closes [found] and returns.  The signal is
    received at most once, and exactly once when the goroutine is past its
    send. *)
Theorem poller_lists_on_each_tick_and_stops_at_first_hit
  (env : environ) (evs : list event) :
  let si := Instrumented.run env evs in
  let sp := Plain.run env evs in
  ((forall c, In c (api_sequence si) -> is_list c = true ->
      c = List (namespace si) (probe_selector (instance si)))
   /\ (forall c, In c (api_sequence sp) -> is_list c = true ->
       c = List "default" (probe_selector (instance sp))))
  /\ ((status si = Running ->
       polling_loop Instrumented.step (namespace si) P_list si)
      /\ (status sp = Running -> polling_loop Plain.step "default" P_wait sp))
  /\ ((status si = Running -> ticker_fires Instrumented.step si)
      /\ (status sp = Running -> ticker_fires Plain.step sp))
  /\ ((status si = Running -> mpc si = M_select ->
       signal_is_received Instrumented.step GMain si)
      /\ (status sp = Running -> wpc sp = W_select ->
          signal_is_received Plain.step GWaiter sp))
  /\ ((ticks_taken si <= list_calls si <= ticks_taken si + 1)
      /\ (list_calls sp <= ticks_taken sp <= list_calls sp + 1))
  /\ (list_calls si * pollInterval <= clock si + pollInterval
      /\ list_calls sp * pollInterval <= clock sp)
  /\ (loop_ends_at_hit (trace si) = true /\ loop_ends_at_hit (trace sp) = true)
  /\ ((has_hit (trace si) = true ->
       (ppc si = P_send /\ took GMain ChFound si = 0%nat)
       \/ ((ppc si = P_close \/ ppc si = P_returned)
           /\ took GMain ChFound si = 1%nat))
      /\ (has_hit (trace sp) = true ->
          (ppc sp = P_send /\ took GWaiter ChFound sp = 0%nat)
          \/ ((ppc sp = P_close \/ ppc sp = P_returned)
              /\ took GWaiter ChFound sp = 1%nat)))
  /\ ((has_hit (trace si) = false -> took GMain ChFound si = 0%nat)
      /\ (has_hit (trace sp) = false -> took GWaiter ChFound sp = 0%nat))
  /\ ((took GMain ChFound si <= 1)%nat /\ (took GWaiter ChFound sp <= 1)%nat).
Proof.
  intros si sp.
  destruct (inv_I_run env evs) as (_ & Ic & Ip).
  destruct (inv_P_run env evs) as (_ & Pc & _ & Pp).
  fold si in Ic, Ip. fold sp in Pc, Pp.
  destruct (poll_facts _ _ _ Ip ltac:(lia)) as (I1 & I2 & I3 & I4 & I5 & I6).
  destruct (poll_facts _ _ _ Pp ltac:(lia)) as (P1 & P2 & P3 & P4 & P5 & P6).
  split.
  { split; intros c Hin Hl; apply api_sequence_In in Hin.
    - pose proof (calls_wf_In _ _ _ _ _ (proj1 Ic) Hin) as Hwf.
      destruct c; try discriminate. destruct Hwf; subst; reflexivity.
    - pose proof (calls_wf_In _ _ _ _ _ (proj1 Pc) Hin) as Hwf.
      destruct c; try discriminate. destruct Hwf; subst; reflexivity. }
  split; [split; [apply polling_loop_I | apply polling_loop_P] |].
  split; [split; [apply ticker_fires_I | apply ticker_fires_P] |].
  split.
  { split; intros Hs Hsel;
      [apply signal_is_received_I | apply signal_is_received_P]; assumption. }
  split; [split; lia |].
  split; [split; lia |].
  repeat split; assumption.
Qed.

(** C7 on a run of the instrumented version.  With the pod created and
    labelled and a tick ready, the polling goroutine takes the tick and is
    about to issue its [List]; once that [List] has returned the pod, the
    goroutine is at its send, [main] receives the signal, and the goroutine
    closes [found] and returns.  The run has issued two [List]s, one before
    the first tick and one on it. *)
Lemma poller_lists_on_each_tick_and_stops_at_first_hit_witness :
  let s0 := Instrumented.run sample_env (firstn 7 found_on_first_tick) in
  let s2 := Instrumented.run sample_env (firstn 9 found_on_first_tick) in
  let s3 := Instrumented.run sample_env (firstn 10 found_on_first_tick) in
  (ppc s0 = P_wait /\ tick_ready s0 = true /\ ctx_done s0 = false)
  /\ (ppc (Instrumented.step s0 (Run GPoller go)) = P_list
      /\ tick_ready (Instrumented.step s0 (Run GPoller go)) = false
      /\ ticks_taken (Instrumented.step s0 (Run GPoller go)) = ticks_taken s0 + 1
      /\ api_sequence (Instrumented.step s0 (Run GPoller go)) = api_sequence s0)
  /\ api_sequence s2 =
     [Create "probes" sample_pod base_labels;
      List "probes" (probe_selector "0123456789abcdef");
      Patch "probes" sample_pod (probe_patch "0123456789abcdef");
      List "probes" (probe_selector "0123456789abcdef")]
  /\ (ppc s2 = P_send /\ mpc s2 = M_select /\ ctx_done s2 = false)
  /\ (took GMain ChFound (Instrumented.step s2 (Run GMain go)) = 1%nat
      /\ ppc (Instrumented.step s2 (Run GMain go)) = P_close)
  /\ (ppc s3 = P_close
      /\ ppc (Instrumented.step s3 (Run GPoller go)) = P_returned
      /\ found_closed (Instrumented.step s3 (Run GPoller go)) = true
      /\ ticker_on (Instrumented.step s3 (Run GPoller go)) = false).
Proof.
  intros s0 s2 s3.
  assert (R0 : status s0 = Running) by (vm_compute; reflexivity).
  assert (R2 : status s2 = Running) by (vm_compute; reflexivity).
  assert (R3 : status s3 = Running) by (vm_compute; reflexivity).
  assert (W0 : ppc s0 = P_wait) by (vm_compute; reflexivity).
  assert (T0 : tick_ready s0 = true) by (vm_compute; reflexivity).
  assert (D0 : ctx_done s0 = false) by (vm_compute; reflexivity).
  assert (S2 : ppc s2 = P_send) by (vm_compute; reflexivity).
  assert (M2 : mpc s2 = M_select) by (vm_compute; reflexivity).
  assert (D2 : ctx_done s2 = false) by (vm_compute; reflexivity).
  assert (C3 : ppc s3 = P_close) by (vm_compute; reflexivity).
  pose proof (poller_lists_on_each_tick_and_stops_at_first_hit sample_env
                (firstn 7 found_on_first_tick)) as H0.
  pose proof (poller_lists_on_each_tick_and_stops_at_first_hit sample_env
                (firstn 9 found_on_first_tick)) as H2.
  pose proof (poller_lists_on_each_tick_and_stops_at_first_hit sample_env
                (firstn 10 found_on_first_tick)) as H3.
  cbv zeta in H0, H2, H3. fold s0 in H0. fold s2 in H2. fold s3 in H3.
  destruct H0 as (_ & (L0 & _) & _).
  destruct H2 as (_ & _ & _ & (G2 & _) & _).
  destruct H3 as (_ & (L3 & _) & _).
  split; [repeat split; assumption |].
  split.
  { exact (proj1 (proj2 (L0 R0 go)) W0 T0 (or_introl D0)). }
  split; [vm_compute; reflexivity |].
  split; [repeat split; assumption |].
  split.
  { exact (G2 R2 M2 go S2 (or_introl D2)). }
  split; [exact C3 |].
  exact (proj2 (proj2 (proj2 (proj2 (proj2 (proj2 (L3 R3 go)))))) C3).
Defined.

(** ** The namespace *)

Lemma currentNamespace_override (env : environ) :
  Getenv env "K8S_NAMESPACE_NAME" <> EmptyString ->
  currentNamespace env = (Getenv env "K8S_NAMESPACE_NAME", None).
Proof.
  intros H. unfold currentNamespace.
  destruct (String.eqb_spec (Getenv env "K8S_NAMESPACE_NAME") EmptyString);
    [contradiction | reflexivity].
Qed.

Lemma currentNamespace_fallback (env : environ) :
  Getenv env "K8S_NAMESPACE_NAME" = EmptyString ->
  currentNamespace env =
  match ReadFile env namespace_file with
  | (_, Some err) => (EmptyString, Some ("failed to read namespace: " ++ err))
  | (data, None) => (data, None)
  end.
Proof. intros H. unfold currentNamespace. rewrite H. reflexivity. Qed.

Lemma instrumented_boot_namespace_error (env : environ) :
  snd (currentNamespace env) <> None ->
  status (Instrumented.boot env) <> Running.
Proof.
  intros H Hs. apply instrumented_boot_running in Hs.
  destruct Hs as (Hns & _). rewrite Hns in H. apply H. reflexivity.
Qed.

(** C8, as amended.  [currentNamespace] returns the override when it is not
    empty, and otherwise the content of the mounted file, or an error when the
    file cannot be read.  The instrumented version issues every remote call
    in the namespace so resolved, and when the resolution fails it panics
    before any remote call.  The plain version resolves nothing: each of its
    calls names the namespace [default]. *)
Theorem namespace_resolved_in_instrumented_version_only
  (env : environ) (evs : list event) :
  (Getenv env "K8S_NAMESPACE_NAME" <> EmptyString ->
   currentNamespace env = (Getenv env "K8S_NAMESPACE_NAME", None))
  /\ (Getenv env "K8S_NAMESPACE_NAME" = EmptyString ->
      forall data, ReadFile env namespace_file = (data, None) ->
      currentNamespace env = (data, None))
  /\ (Getenv env "K8S_NAMESPACE_NAME" = EmptyString ->
      forall data err, ReadFile env namespace_file = (data, Some err) ->
      currentNamespace env =
        (EmptyString, Some ("failed to read namespace: " ++ err))
      /\ status (Instrumented.run env evs) <> Running
      /\ status (Instrumented.run env evs) <> Exited
      /\ api_sequence (Instrumented.run env evs) = [])
  /\ (forall c, In c (api_sequence (Instrumented.run env evs)) ->
      call_namespace c = fst (currentNamespace env))
  /\ (forall c, In c (api_sequence (Plain.run env evs)) ->
      call_namespace c = "default").
Proof.
  split; [apply currentNamespace_override |].
  split.
  { intros H data Hf. rewrite (currentNamespace_fallback env H), Hf. reflexivity. }
  split.
  { intros H data err Hf.
    assert (Hc : currentNamespace env =
                 (EmptyString, Some ("failed to read namespace: " ++ err))).
    { rewrite (currentNamespace_fallback env H), Hf. reflexivity. }
    assert (Hb : status (Instrumented.boot env) <> Running).
    { apply instrumented_boot_namespace_error. rewrite Hc. discriminate. }
    rewrite (instrumented_crashed_boot env evs Hb).
    split; [exact Hc |]. split; [exact Hb |]. split.
    - intros He. destruct (inv_I_boot env) as (Im & _).
      unfold inv_I_main in Im. decompose [and] Im.
      match goal with
      | H1 : status _ = Exited -> mpc _ = M_exited |- _ =>
          pose proof (H1 He) as Hpc
      end.
      clear - Hpc. revert Hpc.
      unfold Instrumented.boot, Instrumented.main_panic, bind, must.
      repeat (break_match; try discriminate); discriminate.
    - unfold api_sequence. rewrite instrumented_boot_no_calls. reflexivity. }
  split.
  { intros c Hin. apply api_sequence_In in Hin.
    destruct (inv_I_run env evs) as (_ & Ic & _).
    pose proof (calls_wf_In _ _ _ _ _ (proj1 Ic) Hin) as Hwf.
    assert (Hns : call_namespace c = namespace (Instrumented.run env evs)).
    { destruct c; simpl in *; destruct Hwf as [-> _]; reflexivity. }
    rewrite Hns.
    destruct (status (Instrumented.boot env)) eqn:Hs.
    - destruct (instrumented_boot_running env Hs) as (-> & _).
      apply instrumented_run_identity.
    - rewrite instrumented_crashed_boot in Hin by congruence.
      rewrite instrumented_boot_no_calls in Hin. contradiction.
    - rewrite instrumented_crashed_boot in Hin by congruence.
      rewrite instrumented_boot_no_calls in Hin. contradiction. }
  intros c Hin. apply api_sequence_In in Hin.
  destruct (inv_P_run env evs) as (_ & Pc & _).
  pose proof (calls_wf_In _ _ _ _ _ (proj1 Pc) Hin) as Hwf.
  destruct c; simpl in *; destruct Hwf as [-> _]; reflexivity.
Qed.

(** C8, as stated, fails for the plain version: with the override set to
    [probes] its [Create] goes to the namespace [default]. *)
Lemma plain_version_ignores_namespace_override :
  currentNamespace sample_env = ("probes", None)
  /\ api_sequence (Plain.run sample_env [Run GMain (ok sample_pod)]) =
     [Create "default" sample_pod base_labels]
  /\ api_sequence (Instrumented.run sample_env [Run GMain (ok sample_pod)]) =
     [Create "probes" sample_pod base_labels].
Proof. vm_compute. repeat split; reflexivity. Qed.

(** C10.  With the override unset and the mounted file empty,
    [currentNamespace] returns the empty string and no error; when the rest
    of the prelude succeeds the run goes on and issues its [Create] in the
    empty namespace. *)
Theorem empty_namespace_file_is_accepted (env : environ) (r : reply) :
  Getenv env "K8S_NAMESPACE_NAME" = EmptyString ->
  ReadFile env namespace_file = (EmptyString, None) ->
  initOpenTelemetry env = Value tt ->
  InClusterConfig env = None -> NewForConfig env = None ->
  snd (rand_Read env) = None ->
  currentNamespace env = (EmptyString, None)
  /\ status (Instrumented.boot env) = Running
  /\ namespace (Instrumented.boot env) = EmptyString
  /\ api_sequence (Instrumented.run env [Run GMain r]) =
     [Create EmptyString (probe_name (token env)) base_labels].
Proof.
  intros Hg Hf Ho Hc Hk Hr.
  assert (Hns : currentNamespace env = (EmptyString, None)).
  { rewrite (currentNamespace_fallback env Hg), Hf. reflexivity. }
  assert (Hb : Instrumented.boot env =
               set_identity (emit initial (SpanStart "prober.main"))
                 EmptyString (token env)).
  { unfold Instrumented.boot, bind, must, token.
    rewrite Ho, Hc, Hk, Hns, Hr. reflexivity. }
  split; [exact Hns |].
  unfold Instrumented.run, Instrumented.run_from. rewrite Hb.
  repeat split. simpl. unfold api_sequence.
  run_step. destruct (r_err r); reflexivity.
Qed.

Lemma empty_namespace_file_is_accepted_witness :
  (Getenv empty_file_env "K8S_NAMESPACE_NAME" = EmptyString
   /\ ReadFile empty_file_env namespace_file = (EmptyString, None)
   /\ initOpenTelemetry empty_file_env = Value tt
   /\ InClusterConfig empty_file_env = None
   /\ NewForConfig empty_file_env = None
   /\ snd (rand_Read empty_file_env) = None)
  /\ currentNamespace empty_file_env = (EmptyString, None)
  /\ status (Instrumented.boot empty_file_env) = Running
  /\ namespace (Instrumented.boot empty_file_env) = EmptyString
  /\ api_sequence (Instrumented.run empty_file_env [Run GMain (ok sample_pod)]) =
     [Create EmptyString (probe_name (token empty_file_env)) base_labels].
Proof.
  split; [repeat split; reflexivity |].
  exact (empty_namespace_file_is_accepted empty_file_env (ok sample_pod)
           eq_refl eq_refl eq_refl eq_refl eq_refl eq_refl).
Defined.

(** ** The two versions side by side *)

Ltac close_after_create :=
  first
    [ close_goal
    | intros; subst; simpl in *; tidy;
      try match goal with m : main_pc |- _ => destruct m end;
      simpl in *; tidy;
      repeat match goal with H : _ = true |- _ => rewrite H; clear H end;
      first [reflexivity | congruence] ].

Lemma after_create_I_step (st : config) (ev : event) :
  inv_I_main st /\ after_create (trace st) = true ->
  after_create (trace (Instrumented.step st ev)) = true.
Proof.
  cases_of_step st ev H; close_after_create.
Qed.

Lemma after_create_P_step (st : config) (ev : event) :
  inv_P_main st /\ after_create (trace st) = true ->
  after_create (trace (Plain.step st ev)) = true.
Proof.
  cases_of_step st ev H; close_after_create.
Qed.

Lemma after_create_I_run (env : environ) (evs : list event) :
  after_create (trace (Instrumented.run env evs)) = true.
Proof.
  apply (instrumented_reachable
           (fun st => inv_I_main st /\ after_create (trace st) = true)).
  - split; [apply inv_I_boot |].
    unfold Instrumented.boot, Instrumented.main_panic, bind, must.
    repeat (break_match; try discriminate); reflexivity.
  - intros st ev H. split;
      [apply inv_I_main_step, H | apply after_create_I_step, H].
Qed.

Lemma after_create_P_run (env : environ) (evs : list event) :
  after_create (trace (Plain.run env evs)) = true.
Proof.
  apply (plain_reachable
           (fun st => inv_P_main st /\ after_create (trace st) = true)).
  - split; [apply inv_P_boot |].
    unfold Plain.boot, bind, must.
    repeat (break_match; try discriminate); reflexivity.
  - intros st ev H. split;
      [apply inv_P_main_step, H | apply after_create_P_step, H].
Qed.

Lemma count_create_patch_I (st : config) :
  inv_I_main st ->
  (count_calls is_create st <= 1)%nat /\ (count_calls is_patch st <= 1)%nat.
Proof. unfold inv_I_main. intros H. decompose [and] H. split; assumption. Qed.

Lemma count_create_patch_P (st : config) :
  inv_P_main st ->
  (count_calls is_create st <= 1)%nat /\ (count_calls is_patch st <= 1)%nat.
Proof. unfold inv_P_main. intros H. decompose [and] H. split; assumption. Qed.

(** ** The two versions on one schedule *)

Lemma main_move_I (st : config) (ev : event) :
  status st = Running -> (mpc st = M_create -> ppc st = P_none) ->
  main_move (namespace st) st (Instrumented.step st ev) ev.
Proof.
  destruct st as [sts mpc ppc wpc clock deadline done ton tnext tready
                  fclosed ns inst pod wstart tr].
  unfold main_move, main_calls_of. simpl. intros -> Hn.
  destruct ev as [d | | | | [| |] r]; destruct mpc; tidy; subst;
    run_step; repeat (break_match; try discriminate); simpl;
    repeat split; intros; try discriminate; try reflexivity; try assumption.
Qed.

Lemma main_move_P (st : config) (ev : event) :
  status st = Running ->
  (mpc st = M_create -> ppc st = P_none /\ wpc st = W_none) ->
  main_move "default" st (Plain.step st ev) ev.
Proof.
  destruct st as [sts mpc ppc wpc clock deadline done ton tnext tready
                  fclosed ns inst pod wstart tr].
  unfold main_move, main_calls_of. simpl. intros -> Hn.
  destruct ev as [d | | | | [| |] r]; destruct mpc; tidy; subst;
    run_step; repeat (break_match; try discriminate); simpl;
    repeat split; intros; try discriminate; try reflexivity; try assumption.
Qed.

Lemma instrumented_stopped (st : config) (ev : event) :
  status st <> Running -> Instrumented.step st ev = st.
Proof. unfold Instrumented.step. destruct (status st); congruence. Qed.

Lemma plain_stopped (st : config) (ev : event) :
  status st <> Running -> Plain.step st ev = st.
Proof. unfold Plain.step. destruct (status st); congruence. Qed.

Lemma world_agrees (si sp : config) (ev : event) :
  clock si = clock sp -> ctx_done si = ctx_done sp ->
  ctx_deadline si = ctx_deadline sp ->
  clock (world si ev) = clock (world sp ev)
  /\ ctx_done (world si ev) = ctx_done (world sp ev).
Proof.
  destruct si as [sts mpc ppc wpc clock deadline done ton tnext tready
                  fclosed ns inst pod wstart tr].
  destruct sp as [sts' mpc' ppc' wpc' clock' deadline' done' ton' tnext' tready'
                  fclosed' ns' inst' pod' wstart' tr'].
  simpl. intros -> -> ->.
  destruct ev as [d | | | | g r]; run_step;
    repeat (break_match; try discriminate); simpl; split; reflexivity.
Qed.

Ltac absurd_iff :=
  match goal with
  | H : ?a = ?a <-> _ |- _ => discriminate (proj1 H eq_refl)
  | H : _ <-> ?a = ?a |- _ => discriminate (proj2 H eq_refl)
  end.

Ltac norm_iff :=
  repeat match goal with
         | H : _ <-> ?a = ?a |- _ =>
             let X := fresh in pose proof (proj2 H eq_refl) as X; clear H
         | H : ?x <-> ?a = ?b |- _ =>
             let X := fresh in
             assert (X : ~ x)
               by (let Y := fresh in intro Y; discriminate (proj1 H Y));
             clear H
         end.

Ltac use_moves :=
  tidy; norm_iff;
  repeat match goal with
         | H : main_calls_of (trace ?s) = _ |- _ => rewrite H; clear H
         | H : pod_name ?s = _ |- _ => rewrite H; clear H
         | H : status ?s = _ |- _ => rewrite H in *; clear H
         | H : mpc ?s = _ |- _ => rewrite H in *; clear H
         end;
  simpl;
  repeat split; intros; try discriminate; try assumption;
  try congruence; try tauto.

Lemma inv_pair_step (si sp : config) (ev : event) :
  (mpc si = M_create -> ppc si = P_none) ->
  (mpc sp = M_create -> ppc sp = P_none /\ wpc sp = W_none) ->
  inv_pair si sp ->
  inv_pair (Instrumented.step si ev) (Plain.step sp ev).
Proof.
  intros Hi Hp (Hinst & Hdl & Hcr & Hat & Hpod & Hrun).
  assert (Di : status si = Running \/ status si <> Running)
    by (destruct (status si); [left | right | right]; congruence).
  assert (Dp : status sp = Running \/ status sp <> Running)
    by (destruct (status sp); [left | right | right]; congruence).
  destruct Di as [Ri | Di]; destruct Dp as [Rp | Dp].
  - pose proof (main_move_I si ev Ri Hi) as MI.
    pose proof (main_move_P sp ev Rp Hp) as MP.
    destruct (Hrun Ri Rp) as (Hclk & Hdone & Hpa & Hcalls).
    destruct (world_agrees si sp ev Hclk Hdone Hdl) as (Wc & Wd).
    clear Hrun Hi Hp.
    remember (Instrumented.step si ev) as si' eqn:Ei; clear Ei.
    remember (Plain.step sp ev) as sp' eqn:Ep; clear Ep.
    unfold main_move in MI, MP. unfold inv_pair.
    destruct MI as (I1 & I2 & I3 & I4 & I5).
    destruct MP as (P1 & P2 & P3 & P4 & P5).
    rewrite I1, I2, I3, I4, P1, P2, P3, P4.
    destruct ev as [d | | | | [| |] r];
      destruct (mpc si) eqn:Emi; destruct (mpc sp) eqn:Emp;
      try absurd_iff;
      try (destruct (r_err r) eqn:Er);
      simpl in I5, P5; use_moves.
  - pose proof (main_move_I si ev Ri Hi) as MI.
    rewrite (plain_stopped sp ev Dp).
    assert (Hne : mpc si <> M_create).
    { intros Hm. apply Dp. rewrite <- (proj1 (Hat Hm)). exact Ri. }
    clear Hrun Hi Hp Hat.
    remember (Instrumented.step si ev) as si' eqn:Ei; clear Ei.
    unfold main_move in MI. unfold inv_pair.
    destruct MI as (I1 & I2 & _ & _ & I5).
    rewrite I1, I2.
    destruct ev as [d | | | | [| |] r];
      destruct (mpc si) eqn:Emi; try contradiction;
      try (destruct (r_err r) eqn:Er);
      simpl in I5; use_moves.
  - pose proof (main_move_P sp ev Rp Hp) as MP.
    rewrite (instrumented_stopped si ev Di).
    assert (Hne : mpc sp <> M_create).
    { intros Hm. apply Di. rewrite (proj1 (Hat (proj2 Hcr Hm))). exact Rp. }
    assert (Hni : mpc si <> M_create) by tauto.
    specialize (Hpod Hni).
    clear Hrun Hi Hp Hat.
    remember (Plain.step sp ev) as sp' eqn:Ep; clear Ep.
    unfold main_move in MP. unfold inv_pair.
    destruct MP as (P1 & P2 & _ & _ & P5).
    rewrite P1, P2.
    destruct ev as [d | | | | [| |] r];
      destruct (mpc sp) eqn:Emp; try contradiction;
      try (destruct (r_err r) eqn:Er);
      simpl in P5; use_moves.
  - rewrite (instrumented_stopped si ev Di), (plain_stopped sp ev Dp).
    exact (conj Hinst (conj Hdl (conj Hcr (conj Hat (conj Hpod Hrun))))).
Qed.

Lemma inv_pair_run (env : environ) (evs : list event) :
  status (Instrumented.boot env) = Running ->
  inv_pair (Instrumented.run env evs) (Plain.run env evs).
Proof.
  intros Hs.
  destruct (instrumented_boot_running env Hs) as (Hns & Hi & _ & Hc & Hk & Hr).
  assert (Hb : Instrumented.boot env =
               set_identity (emit initial (SpanStart "prober.main"))
                 (namespace (Instrumented.boot env)) (token env)).
  { revert Hs Hi. unfold Instrumented.boot, Instrumented.main_panic, bind, must.
    repeat (break_match; try discriminate); simpl; intros _ <-; reflexivity. }
  assert (Hp : Plain.boot env = set_identity initial EmptyString (token env)).
  { unfold Plain.boot, bind, must, token. rewrite Hc, Hk, Hr. reflexivity. }
  induction evs as [| ev evs IH] using rev_ind.
  - unfold Instrumented.run, Plain.run, Instrumented.run_from, Plain.run_from.
    simpl. rewrite Hb, Hp. unfold inv_pair, main_calls_of. simpl.
    repeat split; intros; try reflexivity; try discriminate.
  - rewrite instrumented_run_app, plain_run_app. simpl.
    apply inv_pair_step; [| | exact IH].
    + destruct (inv_I_run env evs) as (Im & _).
      unfold inv_I_main in Im. decompose [and] Im. assumption.
    + destruct (inv_P_run env evs) as (Pm & _).
      unfold inv_P_main in Pm. decompose [and] Pm. assumption.
Qed.

Lemma main_calls_in_namespace (ns : string) (si sp : config) :
  map (in_namespace ns) (main_calls_of (trace si)) = main_calls_of (trace sp) ->
  map (in_namespace ns) (main_calls si) = main_calls sp.
Proof. unfold main_calls. intros H. rewrite map_rev, H. reflexivity. Qed.

(** C9, as amended.  Run on the same schedule with the same environment, the
    two versions agree on what [main] does up to its [select].  When the
    prelude of the instrumented version succeeds so does the other's, and
    both carry the same instance token.  [Create] returns in one exactly when
    it returns in the other, with the same outcome (the same panic when it
    fails) and the same object name.  While both processes run they read the
    same clock and the same context, [Patch] has returned in one exactly when
    it has in the other, and the calls [main] has issued before its [select]
    are the same, the instrumented ones in the resolved namespace and the
    plain ones in [default].  Beyond that the versions share the kinds of
    calls only: every call is well formed for the instance token and the
    object [Create] returned, either version issues at most one [Create], one
    [Patch] and one [Delete], and nothing but [Create] before a [Create] has
    succeeded.  The [List]s, the [Delete] and the outcome are not the
    same. *)
Theorem versions_agree_until_the_select_of_main
  (env : environ) (evs : list event) :
  let si := Instrumented.run env evs in
  let sp := Plain.run env evs in
  (status (Instrumented.boot env) = Running ->
   status (Plain.boot env) = Running
   /\ instance si = token env /\ instance sp = token env
   /\ namespace si = fst (currentNamespace env)
   /\ (mpc si = M_create <-> mpc sp = M_create)
   /\ (mpc si = M_create ->
       status si = status sp
       /\ map (in_namespace "default") (main_calls si) = main_calls sp)
   /\ (mpc si <> M_create -> pod_name si = pod_name sp)
   /\ (status si = Running -> status sp = Running ->
       clock si = clock sp /\ ctx_done si = ctx_done sp
       /\ (mpc si = M_patch <-> mpc sp = M_patch)
       /\ map (in_namespace "default") (main_calls si) = main_calls sp))
  /\ ((forall c, In c (api_sequence si) ->
       call_wf (namespace si) (instance si) (pod_name si) c)
      /\ (forall c, In c (api_sequence sp) ->
          call_wf "default" (instance sp) (pod_name sp) c))
  /\ ((count_calls is_create si <= 1)%nat /\ (count_calls is_create sp <= 1)%nat)
  /\ ((count_calls is_patch si <= 1)%nat /\ (count_calls is_patch sp <= 1)%nat)
  /\ ((count_calls is_delete si <= 1)%nat /\ (count_calls is_delete sp <= 1)%nat)
  /\ (after_create (trace si) = true /\ after_create (trace sp) = true).
Proof.
  intros si sp.
  destruct (inv_I_run env evs) as (Im & Ic & _).
  destruct (inv_P_run env evs) as (Pm & Pc & _).
  fold si in Im, Ic. fold sp in Pm, Pc.
  split.
  { intros Hs.
    destruct (instrumented_boot_running env Hs) as (Hns & Hi & _ & Hc & Hk & Hr).
    destruct (instrumented_run_identity env evs) as [Hn' Hi'].
    assert (Hp : Plain.boot env = set_identity initial EmptyString (token env)).
    { unfold Plain.boot, bind, must, token. rewrite Hc, Hk, Hr. reflexivity. }
    destruct (inv_pair_run env evs Hs) as (_ & _ & Hcr & Hat & Hpod & Hrun).
    fold si in Hcr, Hat, Hpod, Hrun. fold sp in Hcr, Hat, Hpod, Hrun.
    split; [rewrite Hp; reflexivity |].
    split; [unfold si; rewrite Hi'; exact Hi |].
    split; [unfold sp; rewrite plain_run_identity, Hp; reflexivity |].
    split; [unfold si; rewrite Hn', Hns; reflexivity |].
    split; [exact Hcr |].
    split.
    { intros Hm. destruct (Hat Hm) as [H1 H2].
      split; [exact H1 | apply main_calls_in_namespace, H2]. }
    split; [exact Hpod |].
    intros Ri Rp. destruct (Hrun Ri Rp) as (H1 & H2 & H3 & H4).
    repeat split; try assumption; try apply H3.
    apply main_calls_in_namespace, H4. }
  split.
  { split; intros c Hin; apply api_sequence_In in Hin.
    - exact (calls_wf_In _ _ _ _ _ (proj1 Ic) Hin).
    - exact (calls_wf_In _ _ _ _ _ (proj1 Pc) Hin). }
  split; [split; [apply count_create_patch_I, Im | apply count_create_patch_P, Pm] |].
  split; [split; [apply count_create_patch_I, Im | apply count_create_patch_P, Pm] |].
  split; [split; [apply count_delete_I, Im | apply count_delete_P, Pm] |].
  split; [apply after_create_I_run | apply after_create_P_run].
Qed.

(** C9, as amended, on a run: after [Create] and [Patch] have succeeded both
    versions run, at their [select], having issued the same two calls, each
    in its namespace. *)
Lemma versions_agree_until_the_select_of_main_witness :
  let si := Instrumented.run sample_env (firstn 5 found_on_first_tick) in
  let sp := Plain.run sample_env (firstn 5 found_on_first_tick) in
  (status si = Running /\ status sp = Running
   /\ mpc si = M_select /\ mpc sp = M_select)
  /\ main_calls si =
     [Create "probes" sample_pod base_labels;
      Patch "probes" sample_pod (probe_patch "0123456789abcdef")]
  /\ map (in_namespace "default") (main_calls si) = main_calls sp.
Proof.
  intros si sp.
  assert (Hb : status (Instrumented.boot sample_env) = Running)
    by (vm_compute; reflexivity).
  assert (Ri : status si = Running) by (vm_compute; reflexivity).
  assert (Rp : status sp = Running) by (vm_compute; reflexivity).
  split; [repeat split; vm_compute; reflexivity |].
  split; [vm_compute; reflexivity |].
  pose proof (versions_agree_until_the_select_of_main sample_env
                (firstn 5 found_on_first_tick)) as H.
  cbv zeta in H. fold si in H. fold sp in H.
  destruct H as (H & _).
  destruct (H Hb) as (_ & _ & _ & _ & _ & _ & _ & Hrun).
  exact (proj2 (proj2 (proj2 (Hrun Ri Rp)))).
Defined.

(** C9, as stated, fails, with the namespace resolved to [default] so that
    the calls differ in nothing else.  When the pod is found on the first
    tick and every call succeeds, both versions return, but the instrumented
    one has issued a [List] before its first tick that the plain one has not,
    and only the plain one prints a latency.  When a signal arrives before
    any pod is listed, the plain version returns having issued [Create] and
    [Patch] only; the instrumented one issues a [Delete] with the cancelled
    context and, the [Delete] failing, ends in a panic. *)
Lemma versions_differ_in_lists_and_on_cancellation :
  currentNamespace default_env = ("default", None)
  /\ (let si := Instrumented.run default_env found_on_first_tick in
      let sp := Plain.run default_env found_on_first_tick in
      (status si = Exited /\ status sp = Exited
       /\ ctx_done si = false /\ ctx_done sp = false)
      /\ api_sequence si =
         [Create "default" sample_pod base_labels;
          List "default" (probe_selector "0123456789abcdef");
          Patch "default" sample_pod (probe_patch "0123456789abcdef");
          List "default" (probe_selector "0123456789abcdef");
          Delete "default" sample_pod]
      /\ api_sequence sp =
         [Create "default" sample_pod base_labels;
          Patch "default" sample_pod (probe_patch "0123456789abcdef");
          List "default" (probe_selector "0123456789abcdef");
          Delete "default" sample_pod]
      /\ latencies si = [] /\ latencies sp = [100])
  /\ (let si := Instrumented.run default_env cancelled_run in
      let sp := Plain.run default_env cancelled_run in
      (status si = Panicked "context canceled" /\ status sp = Exited)
      /\ api_sequence si =
         [Create "default" sample_pod base_labels;
          List "default" (probe_selector "0123456789abcdef");
          Patch "default" sample_pod (probe_patch "0123456789abcdef");
          Delete "default" sample_pod]
      /\ api_sequence sp =
         [Create "default" sample_pod base_labels;
          Patch "default" sample_pod (probe_patch "0123456789abcdef")]).
Proof. vm_compute. repeat split; reflexivity. Qed.

(** * Further properties of the two versions *)

Ltac unfold_out :=
  unfold inv_I_out, inv_P_out, inv_span_main, inv_span_create,
    inv_span_update, inv_span_cleanup, inv_span_wait, inv_deadline, starts, ends,
    count_actions, stdout_lines in *;
  unfold_inv.

Ltac cases_of_step_out st ev H :=
  destruct st as [status mpc ppc wpc clock deadline done ton tnext tready
                  fclosed ns inst pod wstart tr];
  intros H;
  destruct status;
    [| solve [exact H | decompose [and] H; assumption]
     | solve [exact H | decompose [and] H; assumption]];
  destruct ev as [d | | | | [| |] r];
  run_step;
  repeat (break_match; try discriminate);
  unfold_out; simpl in *; tidy.

Ltac close_out :=
  first
    [ close_goal
    | intros; subst; simpl in *; tidy; use_hyps; tidy;
      try match goal with m : main_pc |- _ => destruct m end;
      try match goal with p : poller_pc |- _ => destruct p end;
      simpl in *; tidy;
      first [ assumption | reflexivity | congruence | lia | auto; fail
            | repeat split; first [assumption | reflexivity | congruence | lia
                                  | auto; fail] ] ].

Lemma inv_I_out_step (st : config) (ev : event) :
  inv_I_main st /\ inv_I_out st -> inv_I_out (Instrumented.step st ev).
Proof. cases_of_step_out st ev H; split_all; close_out. Qed.

Lemma inv_P_out_step (st : config) (ev : event) :
  inv_P_main st /\ inv_P_out st -> inv_P_out (Plain.step st ev).
Proof. cases_of_step_out st ev H; split_all; close_out. Qed.

Arguments String.eqb : simpl never.

Ltac eval_eqb :=
  repeat match goal with
  | |- context [String.eqb ?a ?b] =>
      let v := eval vm_compute in (String.eqb a b) in
      change (String.eqb a b) with v
  | H : context [String.eqb ?a ?b] |- _ =>
      let v := eval vm_compute in (String.eqb a b) in
      change (String.eqb a b) with v in H
  end.

Ltac span_step st ev H :=
  destruct st as [status mpc ppc wpc clock deadline done ton tnext tready
                  fclosed ns inst pod wstart tr];
  intros H;
  destruct status; [| exact H | exact H];
  destruct ev as [d | | | | [| |] r];
  run_step;
  repeat (break_match; try discriminate);
  unfold_out; simpl in *; eval_eqb; simpl in *; tidy;
  split_all; close_out.

Lemma inv_span_main_step (st : config) (ev : event) :
  inv_span_main st -> inv_span_main (Instrumented.step st ev).
Proof. span_step st ev H. Qed.

Lemma inv_span_create_step (st : config) (ev : event) :
  inv_span_create st -> inv_span_create (Instrumented.step st ev).
Proof. span_step st ev H. Qed.

Lemma inv_span_update_step (st : config) (ev : event) :
  inv_span_update st -> inv_span_update (Instrumented.step st ev).
Proof. span_step st ev H. Qed.

Lemma inv_span_cleanup_step (st : config) (ev : event) :
  inv_span_cleanup st -> inv_span_cleanup (Instrumented.step st ev).
Proof. span_step st ev H. Qed.

Lemma inv_span_wait_step (st : config) (ev : event) :
  inv_span_wait st -> inv_span_wait (Instrumented.step st ev).
Proof. span_step st ev H. Qed.

Lemma inv_deadline_step (st : config) (ev : event) :
  is_signal ev = false ->
  inv_deadline st ->
  inv_deadline (Instrumented.step st ev) /\ inv_deadline (Plain.step st ev).
Proof.
  intros Hev H. split; revert H.
  - destruct st as [status mpc ppc wpc clock deadline done ton tnext tready
                    fclosed ns inst pod wstart tr].
    intros H. destruct status; [| exact H | exact H].
    destruct ev as [d | | | | [| |] r]; try discriminate;
      run_step; repeat (break_match; try discriminate);
      unfold_out; simpl in *; tidy; subst; use_hyps;
      unfold runTimeout, Minute, Millisecond in *;
      repeat split; intros; use_hyps;
      first [assumption | reflexivity | lia | discriminate | congruence].
  - destruct st as [status mpc ppc wpc clock deadline done ton tnext tready
                    fclosed ns inst pod wstart tr].
    intros H. destruct status; [| exact H | exact H].
    destruct ev as [d | | | | [| |] r]; try discriminate;
      run_step; repeat (break_match; try discriminate);
      unfold_out; simpl in *; tidy; subst; use_hyps;
      unfold runTimeout, Minute, Millisecond in *;
      repeat split; intros; use_hyps;
      first [assumption | reflexivity | lia | discriminate | congruence].
Qed.

Lemma inv_deadline_boot (env : environ) :
  inv_deadline (Instrumented.boot env) /\ inv_deadline (Plain.boot env).
Proof.
  unfold Instrumented.boot, Instrumented.main_panic, Plain.boot, bind, must.
  repeat (break_match; try discriminate); run_step; unfold_out; simpl;
    repeat split; intros; first [reflexivity | lia | discriminate].
Qed.

Lemma inv_deadline_run (env : environ) (evs : list event) :
  existsb is_signal evs = false ->
  inv_deadline (Instrumented.run env evs) /\ inv_deadline (Plain.run env evs).
Proof.
  induction evs as [| ev evs IH] using rev_ind; intros Hs.
  - apply inv_deadline_boot.
  - rewrite existsb_app in Hs. apply orb_false_iff in Hs.
    destruct Hs as [Hs Hev]. simpl in Hev. rewrite orb_false_r in Hev.
    destruct (IH Hs) as [Hi Hp].
    rewrite instrumented_run_app, plain_run_app. simpl. split.
    + apply (inv_deadline_step _ _ Hev Hi).
    + apply (inv_deadline_step _ _ Hev Hp).
Qed.

Lemma done_taken_after_In (limit : Z) (tr : list (Z * action)) (t : Z)
  (g : goroutine) :
  done_taken_after limit tr -> In (t, Took g ChCtxDone) tr -> limit <= t.
Proof.
  induction tr as [| [t' a] tr IH]; simpl; [tauto |].
  destruct a as [| | | | | | | | g' ch |];
    try (intros H [Heq | Hin]; [discriminate Heq | auto]).
  destruct ch; try (intros H [Heq | Hin]; [discriminate Heq | auto]).
  intros [Hle Htr] [Heq | Hin]; [| auto].
  injection Heq as -> _. exact Hle.
Qed.

Lemma inv_I_out_boot (env : environ) : inv_I_out (Instrumented.boot env).
Proof.
  unfold Instrumented.boot, Instrumented.main_panic, bind, must.
  repeat (break_match; try discriminate); run_step; unfold_out; simpl;
    repeat split; intros; first [reflexivity | discriminate | congruence].
Qed.

Lemma inv_P_out_boot (env : environ) : inv_P_out (Plain.boot env).
Proof.
  unfold Plain.boot, bind, must.
  repeat (break_match; try discriminate); run_step; unfold_out; simpl;
    repeat split; intros; first [reflexivity | discriminate | congruence].
Qed.

Lemma inv_spans_boot (env : environ) : inv_spans (Instrumented.boot env).
Proof.
  unfold inv_spans, Instrumented.boot, Instrumented.main_panic, bind, must.
  repeat (break_match; try discriminate); run_step; unfold_out; simpl;
    eval_eqb; simpl;
    repeat split; intros; first [reflexivity | discriminate | congruence | lia].
Qed.

Lemma inv_I_out_run (env : environ) (evs : list event) :
  inv_I_out (Instrumented.run env evs).
Proof.
  apply (instrumented_reachable (fun st => inv_I_main st /\ inv_I_out st)).
  - split; [apply inv_I_boot | apply inv_I_out_boot].
  - intros st ev H. split;
      [apply inv_I_main_step, H | apply inv_I_out_step, H].
Qed.

Lemma inv_P_out_run (env : environ) (evs : list event) :
  inv_P_out (Plain.run env evs).
Proof.
  apply (plain_reachable (fun st => inv_P_main st /\ inv_P_out st)).
  - split; [apply inv_P_boot | apply inv_P_out_boot].
  - intros st ev H. split;
      [apply inv_P_main_step, H | apply inv_P_out_step, H].
Qed.

Lemma inv_spans_run (env : environ) (evs : list event) :
  inv_spans (Instrumented.run env evs).
Proof.
  apply instrumented_reachable; [apply inv_spans_boot |].
  intros st ev (H1 & H2 & H3 & H4 & H5).
  split; [apply inv_span_main_step, H1 |].
  split; [apply inv_span_create_step, H2 |].
  split; [apply inv_span_update_step, H3 |].
  split; [apply inv_span_cleanup_step, H4 | apply inv_span_wait_step, H5].
Qed.

(** ** The prelude and the instance token *)

Lemma length_fill_buf (written : list byte) :
  Datatypes.length (fill_buf written) = 8%nat.
Proof.
  unfold fill_buf. apply firstn_length_le.
  rewrite length_app, repeat_length. lia.
Qed.

Lemma length_EncodeToString (src : list byte) :
  String.length (EncodeToString src) = (2 * Datatypes.length src)%nat.
Proof. induction src as [| v rest IH]; simpl; [reflexivity | rewrite IH; lia]. Qed.

Lemma length_append_string (a b : string) :
  String.length (a ++ b) = (String.length a + String.length b)%nat.
Proof.
  induction a as [| c a IH]; [reflexivity |].
  change (S (String.length (a ++ b)) = S (String.length a + String.length b)).
  rewrite IH. reflexivity.
Qed.

Lemma hexdigits_of_byte (v : byte) :
  is_hex_digit (hexdigit (N.shiftr (Byte.to_N v) 4)) = true
  /\ is_hex_digit (hexdigit (N.land (Byte.to_N v) 15)) = true.
Proof. destruct v; split; reflexivity. Qed.

Lemma decode_hex_byte (v : byte) :
  match hexvalue (hexdigit (N.shiftr (Byte.to_N v) 4)),
        hexvalue (hexdigit (N.land (Byte.to_N v) 15)) with
  | Some h, Some l => Byte.of_N (N.lor (N.shiftl h 4) l)
  | _, _ => None
  end = Some v.
Proof. destruct v; reflexivity. Qed.

(** Decoding undoes [hex.EncodeToString]. *)
Lemma decode_hex_EncodeToString (src : list byte) :
  decode_hex (EncodeToString src) = Some src.
Proof.
  induction src as [| v rest IH]; [reflexivity |].
  cbn [EncodeToString decode_hex]. rewrite IH.
  pose proof (decode_hex_byte v) as Hv.
  destruct (hexvalue (hexdigit (N.shiftr (Byte.to_N v) 4))); [| discriminate].
  destruct (hexvalue (hexdigit (N.land (Byte.to_N v) 15))); [| discriminate].
  rewrite Hv. reflexivity.
Qed.

Lemma all_hex_EncodeToString (src : list byte) :
  all_chars is_hex_digit (EncodeToString src) = true.
Proof.
  induction src as [| v rest IH]; [reflexivity |].
  cbn [EncodeToString all_chars].
  destruct (hexdigits_of_byte v) as [-> ->]. exact IH.
Qed.

(** X2.  The instance token is sixteen lower-case hexadecimal digits, whatever
    [rand.Read] wrote, and it is the token of every configuration of a run
    whose prelude succeeded. *)
Theorem instance_token_is_sixteen_hex_digits (env : environ) (evs : list event) :
  String.length (token env) = 16%nat
  /\ all_chars is_hex_digit (token env) = true
  /\ String.length (probe_name (token env)) = 22%nat
  /\ (status (Instrumented.boot env) = Running ->
      instance (Instrumented.run env evs) = token env)
  /\ (status (Plain.boot env) = Running ->
      instance (Plain.run env evs) = token env).
Proof.
  assert (Hlen : String.length (token env) = 16%nat).
  { unfold token. rewrite length_EncodeToString, length_fill_buf. reflexivity. }
  split; [exact Hlen |].
  split; [apply all_hex_EncodeToString |].
  split.
  { unfold probe_name. rewrite length_append_string, Hlen. reflexivity. }
  split.
  - intros Hs. destruct (instrumented_boot_running env Hs) as (_ & Hi & _).
    destruct (instrumented_run_identity env evs) as [_ ->]. exact Hi.
  - intros Hs. destruct (plain_boot_running env Hs) as (Hi & _).
    rewrite plain_run_identity. exact Hi.
Qed.

Lemma probe_name_inj (a b : string) : probe_name a = probe_name b -> a = b.
Proof. unfold probe_name. cbv [String.append]. congruence. Qed.

Lemma probe_selector_inj (a b : string) :
  probe_selector a = probe_selector b -> a = b.
Proof. unfold probe_selector. cbv [String.append]. congruence. Qed.

(** X3.  Runs whose random bytes differ never share an instance token, a pod name
    or a label selector. *)
Theorem distinct_random_bytes_give_distinct_names (env env' : environ) :
  fill_buf (fst (rand_Read env)) <> fill_buf (fst (rand_Read env')) ->
  token env <> token env'
  /\ probe_name (token env) <> probe_name (token env')
  /\ probe_selector (token env) <> probe_selector (token env').
Proof.
  intros Hne.
  assert (Ht : token env <> token env').
  { unfold token. intros Heq. apply Hne.
    assert (Hd : decode_hex (EncodeToString (fill_buf (fst (rand_Read env)))) =
                 decode_hex (EncodeToString (fill_buf (fst (rand_Read env')))))
      by (rewrite Heq; reflexivity).
    rewrite !decode_hex_EncodeToString in Hd. congruence. }
  split; [exact Ht |].
  split; intros Heq; apply Ht;
    [apply probe_name_inj | apply probe_selector_inj]; exact Heq.
Qed.

Lemma distinct_random_bytes_give_distinct_names_witness :
  fill_buf (fst (rand_Read (env_with_bytes sample_bytes))) <>
  fill_buf (fst (rand_Read (env_with_bytes other_bytes)))
  /\ probe_name (token (env_with_bytes sample_bytes)) <>
     probe_name (token (env_with_bytes other_bytes)).
Proof.
  split; [vm_compute; discriminate |].
  exact (proj1 (proj2 (distinct_random_bytes_give_distinct_names
                         (env_with_bytes sample_bytes)
                         (env_with_bytes other_bytes)
                         ltac:(vm_compute; discriminate)))).
Defined.

Lemma plain_boot_no_calls (env : environ) :
  calls_of (trace (Plain.boot env)) = [].
Proof.
  unfold Plain.boot, bind, must.
  repeat (break_match; try discriminate); reflexivity.
Qed.

Lemma boot_never_exited (env : environ) :
  status (Instrumented.boot env) <> Exited /\ status (Plain.boot env) <> Exited.
Proof.
  unfold Instrumented.boot, Instrumented.main_panic, Plain.boot, bind, must.
  repeat (break_match; try discriminate); split; discriminate.
Qed.

(** X1.  The prelude succeeds exactly when each of its steps does: telemetry,
    cluster configuration, client, namespace and random bytes in the
    instrumented version; cluster configuration, client and random bytes in
    the plain one, which reads neither the namespace nor the telemetry
    settings.  When a step fails the process panics and no remote call is
    ever issued. *)
Theorem prelude_failure_panics_before_any_remote_call
  (env : environ) (evs : list event) :
  (status (Instrumented.boot env) = Running <->
   initOpenTelemetry env = Value tt
   /\ InClusterConfig env = None /\ NewForConfig env = None
   /\ snd (currentNamespace env) = None /\ snd (rand_Read env) = None)
  /\ (status (Plain.boot env) = Running <->
      InClusterConfig env = None /\ NewForConfig env = None
      /\ snd (rand_Read env) = None)
  /\ (status (Instrumented.boot env) <> Running ->
      (exists m, status (Instrumented.run env evs) = Panicked m)
      /\ api_sequence (Instrumented.run env evs) = [])
  /\ (status (Plain.boot env) <> Running ->
      (exists m, status (Plain.run env evs) = Panicked m)
      /\ api_sequence (Plain.run env evs) = []).
Proof.
  split.
  { split.
    - intros Hs. destruct (instrumented_boot_running env Hs)
        as (Hns & _ & Ho & Hc & Hk & Hr).
      rewrite Hns. repeat split; assumption.
    - intros (Ho & Hc & Hk & Hns & Hr).
      unfold Instrumented.boot, bind, must. rewrite Ho, Hc, Hk. simpl.
      destruct (currentNamespace env) as [ns e]. simpl in Hns. subst e. simpl.
      rewrite Hr. reflexivity. }
  split.
  { split.
    - intros Hs. destruct (plain_boot_running env Hs) as (_ & Hc & Hk & Hr).
      repeat split; assumption.
    - intros (Hc & Hk & Hr).
      unfold Plain.boot, bind, must. rewrite Hc, Hk. simpl.
      rewrite Hr. reflexivity. }
  split.
  - intros Hs. rewrite (instrumented_crashed_boot env evs Hs). split.
    + destruct (status (Instrumented.boot env)) eqn:E;
        [contradiction | | eexists; reflexivity].
      exfalso. apply (proj1 (boot_never_exited env)). exact E.
    + unfold api_sequence. rewrite instrumented_boot_no_calls. reflexivity.
  - intros Hs. rewrite (plain_crashed_boot env evs Hs). split.
    + destruct (status (Plain.boot env)) eqn:E;
        [contradiction | | eexists; reflexivity].
      exfalso. apply (proj2 (boot_never_exited env)). exact E.
    + unfold api_sequence. rewrite plain_boot_no_calls. reflexivity.
Qed.

(** ** Failure of [Create] *)

Lemma created_in_calls (tr : list (Z * action)) :
  calls_of tr = [] -> created_in tr = false.
Proof.
  induction tr as [| [t a] tr IH]; simpl; [reflexivity |].
  destruct a; simpl; auto; discriminate.
Qed.

(** X4.  A [Create] that returns an error panics through [must] with nothing
    to clean up: whatever happens next, the failed [Create] is the only
    remote call of the run, no pod exists for it, no goroutine was started
    and [main] never returns. *)
Theorem create_error_ends_the_process_without_other_calls
  (env : environ) (evs : list event) (r : reply) (e : string) :
  r_err r = Some e ->
  (let st := Instrumented.run env evs in
   status st = Running -> mpc st = M_create ->
   forall evs',
     let s := Instrumented.run_from (Instrumented.step st (Run GMain r)) evs' in
     status s = Panicked e
     /\ api_sequence s =
        [Create (namespace st) (probe_name (instance st)) base_labels]
     /\ pod_created s = false /\ ppc s = P_none)
  /\ (let st := Plain.run env evs in
      status st = Running -> mpc st = M_create ->
      forall evs',
        let s := Plain.run_from (Plain.step st (Run GMain r)) evs' in
        status s = Panicked e
        /\ api_sequence s = [Create "default" (probe_name (instance st)) base_labels]
        /\ pod_created s = false /\ ppc s = P_none /\ wpc s = W_none).
Proof.
  intros He. split.
  - intros st Hs Hm evs'.
    destruct (inv_I_run env evs) as (Im & _). fold st in Im.
    assert (Hst : let s := Instrumented.step st (Run GMain r) in
                  status s = Panicked e
                  /\ api_sequence s =
                     [Create (namespace st) (probe_name (instance st)) base_labels]
                  /\ pod_created s = false /\ ppc s = P_none).
    { revert Im Hs Hm. generalize st. clear st.
      intros [sts mpc ppc wpc clock deadline done ton tnext tready
              fclosed ns inst pod wstart tr].
      unfold_inv. unfold api_sequence. simpl. intros H -> ->. simpl in *.
      decompose [and] H; clear H.
      assert (Hcr : created_in tr = false) by (apply created_in_calls; auto).
      run_step. rewrite He. simpl. tidy.
      repeat split; try reflexivity; assumption. }
    simpl in Hst. destruct Hst as (H1 & H2).
    simpl. rewrite instrumented_frozen; [split; assumption |].
    rewrite H1. discriminate.
  - intros st Hs Hm evs'.
    destruct (inv_P_run env evs) as (Pm & _). fold st in Pm.
    assert (Hst : let s := Plain.step st (Run GMain r) in
                  status s = Panicked e
                  /\ api_sequence s =
                     [Create "default" (probe_name (instance st)) base_labels]
                  /\ pod_created s = false /\ ppc s = P_none /\ wpc s = W_none).
    { revert Pm Hs Hm. generalize st. clear st.
      intros [sts mpc ppc wpc clock deadline done ton tnext tready
              fclosed ns inst pod wstart tr].
      unfold_inv. unfold api_sequence. simpl. intros H -> ->. simpl in *.
      decompose [and] H; clear H.
      assert (Hcr : created_in tr = false) by (apply created_in_calls; auto).
      run_step. rewrite He. simpl. tidy.
      repeat split; try reflexivity; assumption. }
    simpl in Hst. destruct Hst as (H1 & H2).
    simpl. rewrite plain_frozen; [split; assumption |].
    rewrite H1. discriminate.
Qed.

Lemma create_error_ends_the_process_without_other_calls_witness :
  r_err (fails "create refused") = Some "create refused"
  /\ api_sequence
       (Instrumented.run_from
          (Instrumented.step (Instrumented.run sample_env [])
             (Run GMain (fails "create refused")))
          after_list_refused)
     = [Create (namespace (Instrumented.run sample_env []))
          (probe_name (instance (Instrumented.run sample_env []))) base_labels].
Proof.
  split; [reflexivity |].
  exact (proj1 (proj2 (proj1 (create_error_ends_the_process_without_other_calls
                                sample_env [] (fails "create refused")
                                "create refused" eq_refl)
                         eq_refl eq_refl after_list_refused))).
Defined.

(** ** The ticker and the deadline *)

Lemma returned_I_step (n : Z) (st : config) (ev : event) :
  returned_with n st -> returned_with n (Instrumented.step st ev).
Proof.
  destruct st as [sts mpc ppc wpc clock deadline done ton tnext tready
                  fclosed ns inst pod wstart tr].
  unfold returned_with, list_calls, count_calls. simpl.
  intros (Hm & -> & -> & Hn).
  destruct sts; [| repeat split; assumption ..].
  destruct ev as [d | | | | [| |] r]; run_step;
    repeat (break_match; try discriminate); simpl in *;
    repeat split; first [assumption | reflexivity | congruence].
Qed.

Lemma returned_P_step (n : Z) (st : config) (ev : event) :
  returned_with n st -> returned_with n (Plain.step st ev).
Proof.
  destruct st as [sts mpc ppc wpc clock deadline done ton tnext tready
                  fclosed ns inst pod wstart tr].
  unfold returned_with, list_calls, count_calls. simpl.
  intros (Hm & -> & -> & Hn).
  destruct sts; [| repeat split; assumption ..].
  destruct ev as [d | | | | [| |] r]; run_step;
    repeat (break_match; try discriminate); simpl in *;
    repeat split; first [assumption | reflexivity | congruence].
Qed.

(** X5.  The deferred [ticker.Stop()] runs whenever the polling goroutine returns:
    a goroutine that has returned (or not yet created its ticker) holds no
    running ticker, and once it has returned no further [List] is ever
    issued. *)
Theorem ticker_stopped_and_no_list_after_poller_returns
  (env : environ) (evs evs' : list event) :
  let si := Instrumented.run env evs in
  let sp := Plain.run env evs in
  ((ticker_idle (ppc si) = true -> ticker_on si = false)
   /\ (ticker_idle (ppc sp) = true -> ticker_on sp = false))
  /\ (ppc si = P_returned ->
      let s := Instrumented.run env (evs ++ evs') in
      ppc s = P_returned /\ ticker_on s = false /\ list_calls s = list_calls si)
  /\ (ppc sp = P_returned ->
      let s := Plain.run env (evs ++ evs') in
      ppc s = P_returned /\ ticker_on s = false /\ list_calls s = list_calls sp).
Proof.
  intros si sp.
  destruct (inv_I_run env evs) as (Im & _).
  destruct (inv_P_run env evs) as (Pm & _).
  pose proof (inv_I_out_run env evs) as Io.
  pose proof (inv_P_out_run env evs) as Po.
  fold si in Im, Io. fold sp in Pm, Po.
  split; [split; [apply Io | apply Po] |].
  split.
  - intros Hr s.
    assert (H0 : returned_with (list_calls si) si).
    { split; [| split; [exact Hr | split; [| reflexivity]]].
      - intros Hm. unfold inv_I_main in Im. decompose [and] Im.
        match goal with H : mpc si = M_create -> ppc si = P_none |- _ =>
          rewrite (H Hm) in Hr end. discriminate.
      - apply Io. rewrite Hr. reflexivity. }
    subst s. rewrite instrumented_run_app.
    apply (instrumented_run_from_reachable (returned_with (list_calls si)));
      [exact H0 | apply returned_I_step].
  - intros Hr s.
    assert (H0 : returned_with (list_calls sp) sp).
    { split; [| split; [exact Hr | split; [| reflexivity]]].
      - intros Hm. unfold inv_P_main in Pm. decompose [and] Pm.
        match goal with H : mpc sp = M_create -> ppc sp = P_none /\ _ |- _ =>
          rewrite (proj1 (H Hm)) in Hr end. discriminate.
      - apply Po. rewrite Hr. reflexivity. }
    subst s. rewrite plain_run_app.
    apply (plain_run_from_reachable (returned_with (list_calls sp)));
      [exact H0 | apply returned_P_step].
Qed.

(** X6.  While the process runs (no goroutine has panicked and [main] has
    not returned) on a schedule without signal, the context is the
    five-minute timeout of [context.WithTimeout]: it is not done before the
    clock reads five minutes, and every [ctx.Done()] case a goroutine has
    taken was taken at or after that time. *)
Theorem running_context_not_done_before_five_minutes_without_signal
  (env : environ) (evs : list event) :
  existsb is_signal evs = false ->
  let si := Instrumented.run env evs in
  let sp := Plain.run env evs in
  (status si = Running -> ctx_done si = true -> 5 * Minute <= clock si)
  /\ (status sp = Running -> ctx_done sp = true -> 5 * Minute <= clock sp)
  /\ (status si = Running ->
      forall t g, In (t, Took g ChCtxDone) (trace si) -> 5 * Minute <= t)
  /\ (status sp = Running ->
      forall t g, In (t, Took g ChCtxDone) (trace sp) -> 5 * Minute <= t).
Proof.
  intros Hs si sp.
  destruct (inv_deadline_run env evs Hs) as [Hi Hp].
  fold si in Hi. fold sp in Hp. unfold inv_deadline, runTimeout in *.
  destruct Hi as (_ & _ & Hi1 & Hi2). destruct Hp as (_ & _ & Hp1 & Hp2).
  split; [intros _; exact Hi1 |]. split; [intros _; exact Hp1 |].
  split; intros _ t g Hin;
    [apply (done_taken_after_In _ _ _ _ Hi2 Hin)
    | apply (done_taken_after_In _ _ _ _ Hp2 Hin)].
Qed.

Lemma running_context_not_done_before_five_minutes_without_signal_witness :
  (existsb is_signal (firstn 7 deadline_first) = false
   /\ status (Plain.run sample_env (firstn 7 deadline_first)) = Running
   /\ ctx_done (Plain.run sample_env (firstn 7 deadline_first)) = true
   /\ In (300000000000, Took GWaiter ChCtxDone)
         (trace (Plain.run sample_env (firstn 7 deadline_first))))
  /\ 5 * Minute <= clock (Plain.run sample_env (firstn 7 deadline_first))
  /\ 5 * Minute <= 300000000000.
Proof.
  assert (Hs : existsb is_signal (firstn 7 deadline_first) = false)
    by (vm_compute; reflexivity).
  assert (Hr : status (Plain.run sample_env (firstn 7 deadline_first)) = Running)
    by (vm_compute; reflexivity).
  assert (Hd : ctx_done (Plain.run sample_env (firstn 7 deadline_first)) = true)
    by (vm_compute; reflexivity).
  assert (Hin : In (300000000000, Took GWaiter ChCtxDone)
                  (trace (Plain.run sample_env (firstn 7 deadline_first))))
    by (vm_compute; right; left; reflexivity).
  pose proof (running_context_not_done_before_five_minutes_without_signal
                sample_env (firstn 7 deadline_first) Hs) as H.
  cbv zeta in H. destruct H as (_ & H2 & _ & H4).
  split; [repeat split; assumption |].
  split; [exact (H2 Hr Hd) | exact (H4 Hr _ _ Hin)].
Defined.

(** ** What a returned run has done *)

(** X7.  The instrumented version returns only after its [Patch] and its [Delete]
    succeeded: the pod was created, labelled and deleted by exactly one
    [Delete], and both [Created pod <name>] and [Deleted pod <name>] were
    printed, with the name of the object [Create] returned. *)
Theorem instrumented_return_means_pod_deleted (env : environ) (evs : list event) :
  let si := Instrumented.run env evs in
  status si = Exited ->
  pod_created si = true /\ patched_in (trace si) = true
  /\ deleted_in (trace si) = true
  /\ count_calls is_delete si = 1%nat
  /\ In ("Deleted pod " ++ pod_name si) (stdout_lines si)
  /\ In ("Created pod " ++ pod_name si) (stdout_lines si).
Proof.
  intros si Hs.
  destruct (inv_I_run env evs) as (Im & _).
  pose proof (inv_I_out_run env evs) as Io. fold si in Im, Io.
  unfold inv_I_main in Im. unfold inv_I_out in Io.
  decompose [and] Im; clear Im. decompose [and] Io; clear Io.
  assert (Hm : mpc si = M_exited) by auto.
  assert (Hne : mpc si <> M_create) by (rewrite Hm; discriminate).
  assert (Hpp : past_patch (mpc si) = true) by (rewrite Hm; reflexivity).
  assert (Hc : count_calls is_delete si = 1%nat).
  { match goal with H : mpc si = M_exited -> _ /\ _ |- _ => apply H, Hm end. }
  assert (Hdel : deleted_in (trace si) = true
                 /\ In ("Deleted pod " ++ pod_name si) (stdout_lines si)).
  { match goal with H : status si = Exited -> _ /\ In _ _ |- _ =>
      apply H, Hs end. }
  destruct Hdel as [Hdel Hhd].
  repeat split; auto.
Qed.

Lemma instrumented_return_means_pod_deleted_witness :
  (status (Instrumented.run sample_env found_on_first_tick) = Exited
   /\ ctx_done (Instrumented.run sample_env found_on_first_tick) = false)
  /\ deleted_in (trace (Instrumented.run sample_env found_on_first_tick)) = true.
Proof.
  assert (Hs : status (Instrumented.run sample_env found_on_first_tick) = Exited)
    by (vm_compute; reflexivity).
  split; [split; [exact Hs | vm_compute; reflexivity] |].
  exact (proj1 (proj2 (proj2 (instrumented_return_means_pod_deleted
                                sample_env found_on_first_tick Hs)))).
Defined.

(** X8.  In the plain version, when [main] has received from [done] the
    measuring goroutine has received from [found], printed one latency value
    and deleted the pod; and when [main] has returned it has taken exactly
    one case of its [select]. *)
Theorem plain_return_through_done_means_measured_and_deleted
  (env : environ) (evs : list event) :
  let sp := Plain.run env evs in
  (took GMain ChDone sp = 1%nat ->
   took GWaiter ChFound sp = 1%nat
   /\ Datatypes.length (latencies sp) = 1%nat
   /\ deleted_in (trace sp) = true
   /\ In ("Deleted pod " ++ pod_name sp) (stdout_lines sp))
  /\ (status sp = Exited ->
      (took GMain ChDone sp + took GMain ChCtxDone sp = 1)%nat).
Proof.
  intros sp.
  destruct (inv_P_run env evs) as (Pm & _).
  pose proof (inv_P_out_run env evs) as Po. fold sp in Pm, Po.
  unfold inv_P_main in Pm. unfold inv_P_out in Po.
  decompose [and] Pm; clear Pm. decompose [and] Po; clear Po.
  split.
  - intros Hd.
    match goal with H : took GMain ChDone sp = 1%nat -> _ |- _ =>
      destruct (H Hd) as (? & ? & ? & ?) end.
    repeat split; auto.
  - intros Hs. auto.
Qed.

Lemma plain_return_through_done_means_measured_and_deleted_witness :
  took GMain ChDone (Plain.run sample_env found_run) = 1%nat
  /\ deleted_in (trace (Plain.run sample_env found_run)) = true
  /\ latencies (Plain.run sample_env found_run) = [100].
Proof.
  assert (Hd : took GMain ChDone (Plain.run sample_env found_run) = 1%nat)
    by (vm_compute; reflexivity).
  split; [exact Hd |]. split; [| vm_compute; reflexivity].
  exact (proj1 (proj2 (proj2
           (proj1 (plain_return_through_done_means_measured_and_deleted
                     sample_env found_run) Hd)))).
Defined.

(** X9.  In the instrumented version a [Delete] is issued only after the [Patch]
    has returned without error. *)
Theorem instrumented_deletes_only_after_patch (env : environ) (evs : list event) :
  let si := Instrumented.run env evs in
  (1 <= count_calls is_delete si)%nat -> patched_in (trace si) = true.
Proof.
  intros si Hd.
  destruct (inv_I_run env evs) as (Im & _).
  pose proof (inv_I_out_run env evs) as Io. fold si in Im, Io.
  unfold inv_I_main in Im. unfold inv_I_out in Io.
  decompose [and] Im; clear Im. decompose [and] Io; clear Io.
  match goal with H : past_patch (mpc si) = true -> _ |- _ => apply H end.
  destruct (pre_race (mpc si)) eqn:Ep.
  - exfalso.
    match goal with H : true = true -> count_calls is_delete si = 0%nat /\ _ |- _ =>
      destruct (H eq_refl) as [Hz _]; rewrite Hz in Hd; lia end.
  - destruct (mpc si); simpl in Ep; try discriminate; reflexivity.
Qed.

Lemma instrumented_deletes_only_after_patch_witness :
  (1 <= count_calls is_delete (Instrumented.run sample_env cancelled_run))%nat
  /\ patched_in (trace (Instrumented.run sample_env cancelled_run)) = true.
Proof.
  assert (Hd : (1 <= count_calls is_delete
                       (Instrumented.run sample_env cancelled_run))%nat)
    by (vm_compute; lia).
  split; [exact Hd |].
  exact (instrumented_deletes_only_after_patch sample_env cancelled_run Hd).
Defined.

(** ** Spans *)

(** X10.  No span of the instrumented version is started twice or ended more often
    than started.  When [main] returns, the spans [prober.main],
    [prober.create-pod], [prober.update-pod] and [prober.cleanup] have each
    been started once and ended once; the span of the polling goroutine is
    ended exactly when that goroutine has returned. *)
Theorem spans_are_balanced_when_main_returns (env : environ) (evs : list event) :
  let si := Instrumented.run env evs in
  (forall span,
     In span ["prober.main"; "prober.create-pod"; "prober.update-pod";
              "prober.cleanup"; "prober.wait-for-pod"] ->
     (ends span si <= starts span si <= 1)%nat)
  /\ (status si = Exited ->
      forall span,
        In span ["prober.main"; "prober.create-pod"; "prober.update-pod";
                 "prober.cleanup"] ->
        starts span si = 1%nat /\ ends span si = 1%nat)
  /\ (ppc si = P_returned -> ends "prober.wait-for-pod" si = 1%nat)
  /\ (status si = Running -> ppc si <> P_returned ->
      ends "prober.wait-for-pod" si = 0%nat).
Proof.
  intros si.
  destruct (inv_I_run env evs) as (Im & _).
  destruct (inv_spans_run env evs) as (S1 & S2 & S3 & S4 & S5).
  fold si in Im, S1, S2, S3, S4, S5.
  unfold inv_span_main in S1. unfold inv_span_create in S2.
  unfold inv_span_update in S3. unfold inv_span_cleanup in S4.
  unfold inv_span_wait in S5.
  decompose [and] S1; clear S1. decompose [and] S2; clear S2.
  decompose [and] S3; clear S3. decompose [and] S4; clear S4.
  decompose [and] S5; clear S5.
  split.
  { intros span Hin. cbv [In] in Hin.
    destruct Hin as [<- | [<- | [<- | [<- | [<- | []]]]]]; split; try assumption.
    destruct (polling (ppc si)) eqn:E;
      match goal with
      | H : ?b = ?b -> starts _ _ = _ |- _ => rewrite (H eq_refl); lia
      end. }
  split.
  { intros Hs span Hin.
    assert (Hm : mpc si = M_exited).
    { unfold inv_I_main in Im. decompose [and] Im. auto. }
    assert (Hne : mpc si <> M_create) by (rewrite Hm; discriminate).
    assert (Hpp : past_patch (mpc si) = true) by (rewrite Hm; reflexivity).
    simpl in Hin. destruct Hin as [<- | [<- | [<- | [<- | []]]]]; auto. }
  split; [assumption |].
  intros Hs Hr. auto.
Qed.

(** ** Progress after cancellation *)

Lemma select_after_cancellation (st : config) (r : reply) :
  inv_I_main st ->
  status st = Running -> mpc st = M_select -> ctx_done st = true ->
  status (Instrumented.step st (Run GMain r)) = Running
  /\ mpc (Instrumented.step st (Run GMain r)) = M_delete
  /\ (took GMain ChFound (Instrumented.step st (Run GMain r))
      + took GMain ChCtxDone (Instrumented.step st (Run GMain r)) = 1)%nat
  /\ count_calls is_delete (Instrumented.step st (Run GMain r)) = 0%nat.
Proof.
  intros Im Hs Hm Hd.
  pose proof (inv_I_main_step st (Run GMain r) Im) as Im1.
  assert (H : status (Instrumented.step st (Run GMain r)) = Running
              /\ mpc (Instrumented.step st (Run GMain r)) = M_delete).
  { clear Im Im1. revert Hs Hm Hd.
    destruct st as [sts mpc ppc wpc clock deadline done ton tnext tready
                    fclosed ns inst pod wstart tr].
    simpl. intros -> -> ->. run_step.
    repeat (break_match; try discriminate); split; reflexivity. }
  destruct H as [Hs1 Hm1]. split; [exact Hs1 |]. split; [exact Hm1 |].
  unfold inv_I_main in Im1. decompose [and] Im1; clear Im1.
  rewrite Hm1 in *. simpl in *. tidy. split; auto.
Qed.

Lemma delete_ends_the_run (st : config) (r : reply) :
  status st = Running -> mpc st = M_delete ->
  status (Instrumented.step st (Run GMain r)) <> Running
  /\ (forall e, r_err r = Some e ->
      status (Instrumented.step st (Run GMain r)) = Panicked e).
Proof.
  destruct st as [sts mpc ppc wpc clock deadline done ton tnext tready
                  fclosed ns inst pod wstart tr].
  simpl. intros -> ->. run_step.
  destruct (r_err r); simpl; split; try discriminate;
    intros e' He; congruence.
Qed.

(** X11.  Once the context is done, the final [select] of the instrumented
    [main] cannot block: whatever the polling goroutine is doing, the next
    step of [main] takes a case of the [select], and the step after it issues
    the one [Delete] of the run and ends the run: by a panic with the
    error's message when the [Delete] returns an error. *)
Theorem instrumented_main_deletes_after_cancellation
  (env : environ) (evs : list event) (r r' : reply) :
  let st := Instrumented.run env evs in
  status st = Running -> mpc st = M_select -> ctx_done st = true ->
  let s1 := Instrumented.step st (Run GMain r) in
  let s2 := Instrumented.step s1 (Run GMain r') in
  (status s1 = Running /\ mpc s1 = M_delete
   /\ (took GMain ChFound s1 + took GMain ChCtxDone s1 = 1)%nat
   /\ count_calls is_delete s1 = 0%nat)
  /\ count_calls is_delete s2 = 1%nat
  /\ status s2 <> Running
  /\ (forall e, r_err r' = Some e -> status s2 = Panicked e).
Proof.
  intros st Hs Hm Hd s1 s2.
  destruct (inv_I_run env evs) as (Im & _). fold st in Im.
  pose proof (select_after_cancellation st r Im Hs Hm Hd) as H1.
  fold s1 in H1. destruct H1 as (Hs1 & Hm1 & Ht & Hc).
  pose proof (inv_I_main_step st (Run GMain r) Im) as Im1. fold s1 in Im1.
  split; [repeat split; assumption |].
  split; [exact (delete_is_next s1 r' Im1 Hs1 Hm1) |].
  exact (delete_ends_the_run s1 r' Hs1 Hm1).
Qed.

Lemma instrumented_main_deletes_after_cancellation_witness :
  (status (Instrumented.run sample_env (firstn 6 cancelled_run)) = Running
   /\ mpc (Instrumented.run sample_env (firstn 6 cancelled_run)) = M_select
   /\ ctx_done (Instrumented.run sample_env (firstn 6 cancelled_run)) = true)
  /\ count_calls is_delete
       (Instrumented.step
          (Instrumented.step
             (Instrumented.run sample_env (firstn 6 cancelled_run))
             (Run GMain go))
          (Run GMain (fails "context canceled"))) = 1%nat
  /\ status
       (Instrumented.step
          (Instrumented.step
             (Instrumented.run sample_env (firstn 6 cancelled_run))
             (Run GMain go))
          (Run GMain (fails "context canceled"))) = Panicked "context canceled".
Proof.
  assert (Hs : status (Instrumented.run sample_env (firstn 6 cancelled_run))
               = Running) by (vm_compute; reflexivity).
  assert (Hm : mpc (Instrumented.run sample_env (firstn 6 cancelled_run))
               = M_select) by (vm_compute; reflexivity).
  assert (Hd : ctx_done (Instrumented.run sample_env (firstn 6 cancelled_run))
               = true) by (vm_compute; reflexivity).
  pose proof (instrumented_main_deletes_after_cancellation sample_env
                (firstn 6 cancelled_run) go (fails "context canceled")
                Hs Hm Hd) as H.
  cbv zeta in H. destruct H as (_ & Hc & _ & Hp).
  split; [repeat split; assumption |].
  split; [exact Hc | exact (Hp "context canceled" eq_refl)].
Defined.
